(** * Weather service: cache, fallback and temperature conversion

    A shallow embedding of [services/weather/weatherService.ts] and of the
    types of [services/weather/weatherTypes.ts].

    Modelling conventions.
    - A JavaScript [number] holding a temperature is given by a rational
      ([Q]): a binary64 number is its own value, and the decimal
      [parseFloat] reads stands for the binary64 number nearest to it.
      [toFixed] rounds the exact value, as ECMAScript defines it, and the
      comparisons of the service are exact.  The arithmetic of
      [convertTemperature] is binary64 arithmetic: every operation is
      rounded to nearest, ties to even, and overflows to an infinity.  The
      sign of zero is not kept.  A number read from a JSON body is never
      NaN, and a reading holds a finite number.
    - A [Date] made by [new Date()] is its [getTime()] value, an integer
      number of milliseconds ([Z]).  The [Date] made from the provider's
      [last_updated] string is kept as that string: the service stores it
      and never reads it.
    - The module variable [weatherCache] is the state of a small
      state-and-exception monad; [try]/[catch] keeps the state reached by
      the block that threw, as JavaScript does.
    - The provider and the clock are inputs of a call: [fetch] gives, for a
      location, what [await fetch(url)] produces, and [now] is the value of
      the one [new Date()] the call evaluates.  A call is taken as a whole:
      the service reads and writes the slot only after its last [await],
      and interleaving of several pending calls is not modelled. *)

From Stdlib Require Import ZArith QArith Qround Qabs Qpower Lqa Lia Bool String List.
Import ListNotations.

Local Open Scope string_scope.
Local Open Scope Z_scope.

(** ** weatherTypes.ts *)

Inductive TemperatureUnit : Set := celsius | fahrenheit.

Inductive ConnectionStatus : Set := online | offline | outdated.

Record WeatherData : Set := mkWeatherData {
  temperature : Q;
  temperatureUnit : TemperatureUnit;
  location : string;
  lastUpdate : string;
  connectionStatus : ConnectionStatus
}.

(** [current] and [location] of the provider's answer, flattened. *)
Record WeatherApiResponse : Set := mkWeatherApiResponse {
  temp_c : Q;
  temp_f : Q;
  last_updated : string;
  name : string;
  region : string;
  country : string
}.

(** [CachedWeatherData extends WeatherData]: the reading and [cachedAt]. *)
Record CachedWeatherData : Set := mkCachedWeatherData {
  reading : WeatherData;
  cachedAt : Z
}.

Definition unit_eqb (a b : TemperatureUnit) : bool :=
  match a, b with
  | celsius, celsius | fahrenheit, fahrenheit => true
  | _, _ => false
  end.

(** ** Numbers: [x.toFixed(1)] and [parseFloat] *)

(** [toFixed1 x] is the integer [n] of ECMAScript's [Number.prototype.toFixed]
    with one fraction digit, with the sign the digit string carries: for
    [x >= 0] the integer for which [n / 10 - x] is closest to zero, the
    larger one of two; for [x < 0] the same for [- x], behind a minus
    sign.  The string printed is [n] with a point before its last digit. *)
Definition toFixed1 (x : Q) : Z :=
  if Qle_bool 0 x
  then Qfloor (x * 10 + (1 # 2))
  else - Qfloor (- x * 10 + (1 # 2)).

(** [parseFloat] of such a string: [n] tenths, in lowest terms. *)
Definition parseFloat1 (n : Z) : Q := Qred (n # 10).

(** [parseFloat(x.toFixed(1))] *)
Definition round1 (x : Q) : Q := parseFloat1 (toFixed1 x).

(** ** Numbers: binary64 arithmetic *)

(** A JavaScript number.  A finite one is given by a rational: a binary64
    number by its value, and a decimal that is none (a literal, the digits
    [parseFloat] reads) stands for the binary64 number nearest to it,
    which [double] computes. *)
Inductive Number : Set :=
| Finite (q : Q)
| Infinity (negative : bool)
| NaN.

Definition pow2 (z : Z) : Q := (2 ^ z)%Q.

(** The binade of [q], not zero: the [e] with [2^e <= |q| < 2^(e+1)]. *)
Definition ilog2 (q : Q) : Z :=
  let e := Z.log2 (Z.abs (Qnum q)) - Z.log2 (Zpos (Qden q)) in
  if Qle_bool (pow2 e) (Qabs q) then e else e - 1.

(** The nearest integer, the even one of two. *)
Definition roundEven (x : Q) : Z :=
  let f := Qfloor x in
  match (x - inject_Z f ?= 1 # 2)%Q with
  | Lt => f
  | Gt => f + 1
  | Eq => if Z.even f then f else f + 1
  end.

(** Rounding to binary64: to the nearest multiple of the unit in the last
    place of the binade (53 bits, subnormal below [2^-1022]), ties to
    even, and to an infinity from [2^1024] on. *)
Definition binary64 (q : Q) : Number :=
  if Qeq_bool q 0 then Finite 0
  else
    let e := Z.max (ilog2 q) (-1022) - 52 in
    let r := (inject_Z (roundEven (q / pow2 e)) * pow2 e)%Q in
    if Qle_bool (pow2 1024) (Qabs r) then Infinity (negb (Qle_bool 0 q))
    else Finite (Qred r).

(** The binary64 number a number given by a decimal stands for. *)
Definition double (x : Number) : Number :=
  match x with
  | Finite q => binary64 q
  | _ => x
  end.

(** [x op k] for a constant [k] that is positive and a binary64 number:
    the exact result is rounded; an infinity and NaN stay as they are. *)
Definition arith (op : Q -> Q -> Q) (x : Number) (k : Q) : Number :=
  match x with
  | Finite a => binary64 (op a k)
  | _ => x
  end.

Definition mul64 : Number -> Q -> Number := arith Qmult.

Definition div64 : Number -> Q -> Number := arith Qdiv.

Definition add64 : Number -> Q -> Number := arith Qplus.

Definition sub64 : Number -> Q -> Number := arith Qminus.

(** [parseFloat(x.toFixed(1))]: an infinity and NaN print as their names
    and are read back. *)
Definition roundNumber (x : Number) : Number :=
  match x with
  | Finite q => Finite (round1 q)
  | _ => x
  end.

(** The finite number a reading holds: the conversion of a temperature of
    at most 10^12 in size is finite. *)
Definition stored (x : Number) : Q :=
  match x with
  | Finite q => q
  | _ => 0
  end.

Record TemperatureConversionParams : Set := mkParams {
  value : Number;
  from : TemperatureUnit;
  to : TemperatureUnit
}.

(** ** Errors, the cache and the monad of the service *)

(** An [Error] is its message. *)
Definition Error : Set := string.

(** [let weatherCache: CachedWeatherData | null = null] *)
Definition Cache : Set := option CachedWeatherData.

Definition weatherCache_init : Cache := None.

Inductive Outcome (A : Type) : Type :=
| Returned (a : A)
| Thrown (error : Error).

Arguments Returned {A} a.
Arguments Thrown {A} error.

Definition M (A : Type) : Type := Cache -> Outcome A * Cache.

Definition ret {A} (a : A) : M A := fun s => (Returned a, s).

Definition throw {A} (error : Error) : M A := fun s => (Thrown error, s).

Definition bind {A B} (m : M A) (k : A -> M B) : M B :=
  fun s =>
    match m s with
    | (Returned a, s') => k a s'
    | (Thrown error, s') => (Thrown error, s')
    end.

(** [try { m } catch (error) { h error }]: the handler starts in the state
    the block left. *)
Definition try_catch {A} (m : M A) (h : Error -> M A) : M A :=
  fun s =>
    match m s with
    | (Returned a, s') => (Returned a, s')
    | (Thrown error, s') => h error s'
    end.

Definition readCache : M Cache := fun s => (Returned s, s).

Definition writeCache (c : Cache) : M unit := fun _ => (Returned tt, c).

(** [await p]: a rejected promise throws. *)
Definition await {A} (p : Error + A) : M A :=
  match p with
  | inl error => throw error
  | inr a => ret a
  end.

Declare Scope service_scope.
Delimit Scope service_scope with service.

Notation "x <- m ;; k" := (bind m (fun x => k))
  (at level 61, m at next level, right associativity) : service_scope.
Notation "m ;; k" := (bind m (fun _ => k))
  (at level 61, right associativity) : service_scope.
Notation "'try' m 'catch' h" := (try_catch m h)
  (at level 62, m at level 61, h at level 61) : service_scope.

Definition result {A} (r : Outcome A * Cache) : Outcome A := fst r.

Definition cacheAfter {A} (r : Outcome A * Cache) : Cache := snd r.

(** ** The provider *)

(** What the service reads of a [Response]: [ok], and [await json()] with
    the fields read from it, or the error thrown on the way. *)
Record Response : Set := mkResponse {
  ok : bool;
  json : Error + WeatherApiResponse
}.

(** The provider as seen through [await fetch(url)] for a location. *)
Definition Fetch : Set := string -> Error + Response.

(** ** weatherService.ts *)

Definition oneHour : Z := 60 * 60 * 1000.

Definition twentyFourHours : Z := 24 * 60 * 60 * 1000.

(** Lines 99-104 of the service: the status of a cache of age [cacheAge]. *)
Definition cacheStatus (cacheAge : Z) : ConnectionStatus :=
  let connectionStatus := offline in
  if cacheAge >? twentyFourHours then outdated
  else if cacheAge >? oneHour then outdated
  else connectionStatus.

(** [{ ...weatherCache, connectionStatus }] at the declared type
    [WeatherData] (the object also carries [cachedAt]). *)
Definition withStatus (w : WeatherData) (s : ConnectionStatus) : WeatherData :=
  {| temperature := temperature w;
     temperatureUnit := temperatureUnit w;
     location := location w;
     lastUpdate := lastUpdate w;
     connectionStatus := s |}.

Definition getCachedWeatherData (now : Z) : M WeatherData :=
  (weatherCache <- readCache ;;
   match weatherCache with
   | None => throw "noCachedDataAvailable"
   | Some cached =>
       let cacheAge := now - cachedAt cached in
       ret (withStatus (reading cached) (cacheStatus cacheAge))
   end)%service.

(** [a || b] on strings: the empty string is falsy. *)
Definition string_or (a b : string) : string :=
  match a with
  | EmptyString => b
  | _ => a
  end.

(** [x < y] on numbers. *)
Definition Qlt_bool (x y : Q) : bool :=
  match (x ?= y)%Q with
  | Lt => true
  | _ => false
  end.

(** The test of line 46. *)
Definition outOfRange (t : Q) : bool :=
  Qlt_bool t (-90) || Qlt_bool 60 t.

(** The reading built from the provider's answer (lines 50-56). *)
Definition weatherDataOf (data : WeatherApiResponse) : WeatherData :=
  {| temperature := round1 (temp_c data);
     temperatureUnit := celsius;
     location := name data ++ ", " ++ string_or (region data) (country data);
     lastUpdate := last_updated data;
     connectionStatus := online |}.

(** The block of the [try] (lines 30-66). *)
Definition fetchFresh (fetch : Fetch) (now : Z) (loc : string) : M WeatherData :=
  (response <- await (fetch loc) ;;
   (if negb (ok response) then throw "weatherApiRequestFailed" else ret tt) ;;
   data <- await (json response) ;;
   (if outOfRange (temp_c data) then throw "temperatureOutOfRange" else ret tt) ;;
   let weatherData := weatherDataOf data in
   writeCache (Some {| reading := weatherData; cachedAt := now |}) ;;
   ret weatherData)%service.

(** The handler of the [catch] (lines 67-75). *)
Definition fallback (now : Z) (error : Error) : M WeatherData :=
  (weatherCache <- readCache ;;
   match weatherCache with
   | Some _ => getCachedWeatherData now
   | None => throw error
   end)%service.

Definition fetchWeatherData (fetch : Fetch) (now : Z) (loc : string)
  : M WeatherData :=
  (try fetchFresh fetch now loc catch fallback now)%service.

(** The three operations of each formula are binary64 operations on the
    binary64 number [value] stands for. *)
Definition convertTemperature (params : TemperatureConversionParams) : Number :=
  let '(mkParams value from to) := params in
  if unit_eqb from to then roundNumber value
  else if unit_eqb from celsius && unit_eqb to fahrenheit
  then roundNumber (add64 (div64 (mul64 (double value) 9) 5) 32)
  else if unit_eqb from fahrenheit && unit_eqb to celsius
  then roundNumber (div64 (mul64 (sub64 (double value) 32) 5) 9)
  else roundNumber value.

Definition hasCachedData : M bool :=
  (weatherCache <- readCache ;;
   ret (match weatherCache with Some _ => true | None => false end))%service.

Definition clearCache : M unit := writeCache None.

(** ** The ways a call to the provider ends *)

(** The block of the [try] throws [error]: the request itself fails, the
    status is not a success, the body cannot be read, or the reading is
    out of range. *)
Inductive FetchFails (fetch : Fetch) (loc : string) : Error -> Prop :=
| TransportError error :
    fetch loc = inl error ->
    FetchFails fetch loc error
| NonSuccessStatus response :
    fetch loc = inr response -> ok response = false ->
    FetchFails fetch loc "weatherApiRequestFailed"
| UnreadableBody response error :
    fetch loc = inr response -> ok response = true ->
    json response = inl error ->
    FetchFails fetch loc error
| TemperatureOutOfRange response data :
    fetch loc = inr response -> ok response = true ->
    json response = inr data -> outOfRange (temp_c data) = true ->
    FetchFails fetch loc "temperatureOutOfRange".

(** The provider answers with a success status and a reading [data] that
    passes the validation. *)
Inductive FetchSucceeds (fetch : Fetch) (loc : string)
  (data : WeatherApiResponse) : Prop :=
| Accepted response :
    fetch loc = inr response -> ok response = true ->
    json response = inr data -> outOfRange (temp_c data) = false ->
    FetchSucceeds fetch loc data.

(** The slot after a successful fetch at time [now]. *)
Definition freshSlot (data : WeatherApiResponse) (now : Z) : Cache :=
  Some {| reading := weatherDataOf data; cachedAt := now |}.

Ltac run_service :=
  unfold fetchWeatherData, fetchFresh, fallback, getCachedWeatherData,
    hasCachedData, clearCache, try_catch, bind, await, readCache,
    writeCache, throw, ret, result, cacheAfter.

(** [lra] reads a product by a constant, not a quotient. *)
Ltac by_tenth := unfold Qdiv; change (/ 10)%Q with (1 # 10)%Q.

(** One rounding in a chain of operations: [lemma] bounds the error for
    the value [y]. *)
Ltac round_step lemma y r Hr He :=
  destruct (lemma y) as (r & Hr & He);
  [ unfold Qdiv; change (/ 5)%Q with (1 # 5)%Q; change (/ 9)%Q with (1 # 9)%Q;
    split; lra
  | unfold Qdiv in He;
    change (/ 5)%Q with (1 # 5)%Q in He; change (/ 9)%Q with (1 # 9)%Q in He ].


(** ** Sequences of calls *)

(** A call of one of the five exported operations, with what the provider
    and the clock give it. *)
Inductive Call : Set :=
| FetchWeatherData (fetch : Fetch) (now : Z) (loc : string)
| GetCachedWeatherData (now : Z)
| ConvertTemperature (params : TemperatureConversionParams)
| HasCachedData
| ClearCache.

(** The slot after one call; [convertTemperature] is a function of its
    argument alone. *)
Definition step (s : Cache) (c : Call) : Cache :=
  match c with
  | FetchWeatherData fetch now loc => cacheAfter (fetchWeatherData fetch now loc s)
  | GetCachedWeatherData now => cacheAfter (getCachedWeatherData now s)
  | ConvertTemperature params => cacheAfter (ret (convertTemperature params) s)
  | HasCachedData => cacheAfter (hasCachedData s)
  | ClearCache => cacheAfter (clearCache s)
  end.

(** The slot after a sequence of calls made from the start of the process. *)
Definition run (calls : list Call) : Cache :=
  fold_left step calls weatherCache_init.

(** What a stored record looks like. *)
Definition validSlot (s : Cache) : Prop :=
  match s with
  | None => True
  | Some cached =>
      connectionStatus (reading cached) = online /\
      temperatureUnit (reading cached) = celsius /\
      (-90 <= temperature (reading cached) <= 60)%Q /\
      round1 (temperature (reading cached)) = temperature (reading cached)
  end.

(** ** The classification of the cache age as the specification words it *)

(** One threshold: [offline] up to one hour, [outdated] beyond. *)
Definition singleThresholdStatus (cacheAge : Z) : ConnectionStatus :=
  if cacheAge <=? oneHour then offline else outdated.

(** ** Sample data *)

Definition lisbon : WeatherApiResponse :=
  {| temp_c := 2134 # 100; temp_f := 7041 # 100;
     last_updated := "2024-05-01 12:00";
     name := "Lisbon"; region := "Lisboa"; country := "Portugal" |}.

Definition oslo : WeatherApiResponse :=
  {| temp_c := - (325 # 100); temp_f := 2615 # 100;
     last_updated := "2024-05-01 12:15";
     name := "Oslo"; region := EmptyString; country := "Norway" |}.

Definition furnace : WeatherApiResponse :=
  {| temp_c := 61; temp_f := 1418 # 10;
     last_updated := "2024-05-01 12:30";
     name := "Furnace Creek"; region := "California"; country := "USA" |}.

(** A provider that knows three places, rejects a fourth and is out of
    reach for the rest. *)
Definition provider : Fetch :=
  fun loc =>
    if String.eqb loc "Lisbon" then inr {| ok := true; json := inr lisbon |}
    else if String.eqb loc "Oslo" then inr {| ok := true; json := inr oslo |}
    else if String.eqb loc "Furnace Creek"
    then inr {| ok := true; json := inr furnace |}
    else if String.eqb loc "Atlantis"
    then inr {| ok := false; json := inl "Unexpected token" |}
    else inl "fetch failed".

Definition lisbonSlot : Cache := freshSlot lisbon 1000.

(** * The callers of the service

    The response builders of [utils/response], the two handlers of the
    weather controller and the error middleware.  A handler is a
    computation in the monad of the service that ends with the one
    response it sends, or with the error it hands to [next]; Express
    itself (routing, parsing of the request, what follows [next]) is not
    modelled.  The library's [toISOString] is a parameter. *)

(** ** utils/response *)

(** A value of type [any]. *)
#[warnings="-register-all"]
Inductive JsValue : Set :=
| JsUndefined
| JsNull
| JsBool (b : bool)
| JsNumber (q : Q)
| JsString (s : string)
| JsObject (fields : list (string * JsValue)).

(** An object used as a record of keys ([Record<string, any>]): its own
    keys in their order. *)
Definition Obj : Set := list (string * JsValue).

Definition nonEmpty (s : string) : bool :=
  match s with
  | EmptyString => false
  | _ => true
  end.

(** What [v && ...] and [!v] test. *)
Definition truthy (v : JsValue) : bool :=
  match v with
  | JsUndefined | JsNull => false
  | JsBool b => b
  | JsNumber q => negb (Qeq_bool q 0)
  | JsString s => nonEmpty s
  | JsObject _ => true
  end.

Fixpoint getKey (k : string) (o : Obj) : option JsValue :=
  match o with
  | [] => None
  | (k', v) :: o' => if String.eqb k k' then Some v else getKey k o'
  end.

(** [o[k] = v]: an own key keeps its place, a new one goes last. *)
Fixpoint setKey (k : string) (v : JsValue) (o : Obj) : Obj :=
  match o with
  | [] => [(k, v)]
  | (k', v') :: o' =>
      if String.eqb k k' then (k', v) :: o' else (k', v') :: setKey k v o'
  end.

(** [{ ...target, ...source }]: the keys of [source] are set in order. *)
Definition spread (target source : Obj) : Obj :=
  fold_left (fun o kv => setKey (fst kv) (snd kv) o) source target.

(** [SuccessResponse<T>]; [success: true] is the type itself. *)
Record SuccessResponse (T : Set) : Set := mkSuccessResponse {
  data : T;
  metadata : Obj
}.

Arguments mkSuccessResponse {T} data metadata.
Arguments data {T} s.
Arguments metadata {T} s.

(** [ErrorResponse], with [error] flattened; a key left out is [None]. *)
Record ErrorResponse : Set := mkErrorResponse {
  message : string;
  code : option string;
  details : option JsValue;
  timestamp : string
}.

(** [toISOString] is the library's printing of a [Date]; [now] is the
    value of the call's [new Date()]; [metadata] is [None] when the
    argument is left out. *)
Definition successResponse {T : Set} (toISOString : Z -> string) (now : Z)
  (data : T) (metadata : option Obj) : SuccessResponse T :=
  {| data := data;
     metadata :=
       spread [("timestamp", JsString (toISOString now))]
         (match metadata with Some m => m | None => [] end) |}.

Definition errorResponse (toISOString : Z -> string) (now : Z)
  (message : string) (code : option string) (details : JsValue)
  : ErrorResponse :=
  {| message := message;
     code := match code with
             | Some c => if nonEmpty c then Some c else None
             | None => None
             end;
     details := if truthy details then Some details else None;
     timestamp := toISOString now |}.

(** ** middleware/error *)

(** [AppError]: the message, and the optional [statusCode] and [stack]. *)
Record AppError : Set := mkAppError {
  errorMessage : string;
  statusCode : option Z;
  stack : option string
}.

(** The body [errorMiddleware] sends, with [error] flattened. *)
Record FailureBody : Set := mkFailureBody {
  failureMessage : string;
  failureStack : option string;
  failureTimestamp : string
}.

(** ** What a handler does with a request *)

Inductive Json : Set :=
| JsonSuccess (r : SuccessResponse WeatherData)
| JsonError (r : ErrorResponse)
| JsonFailure (r : FailureBody).

(** [res.status(status).json(body)]; [res.json(body)] sends status 200. *)
Record HttpResponse : Set := mkHttpResponse {
  status : Z;
  body : Json
}.

Inductive Handled : Set :=
| Sent (r : HttpResponse)
| Next (error : Error).

(** [development] is [process.env.NODE_ENV === 'development']; the call of
    [console.error] is left out. *)
Definition errorMiddleware (toISOString : Z -> string) (development : bool)
  (now : Z) (error : AppError) : HttpResponse :=
  let statusCode :=
    match statusCode error with
    | Some c => if c =? 0 then 500 else c
    | None => 500
    end in
  let message := string_or (errorMessage error) "Internal Server Error" in
  {| status := statusCode;
     body := JsonFailure
               {| failureMessage := message;
                  failureStack := if development then stack error else None;
                  failureTimestamp := toISOString now |} |}.

(** ** api/v1/external/weather/controller *)

(** A property read from [req.query] or [req.body]: absent, a string, or
    a value of another type. *)
Inductive Param : Set :=
| Absent
| Text (s : string)
| NotText.

(** [!p || typeof p !== 'string'] fails: [p] is a string and not empty. *)
Definition nonEmptyText (p : Param) : option string :=
  match p with
  | Text s => if nonEmpty s then Some s else None
  | _ => None
  end.

(** [u !== 'celsius' && u !== 'fahrenheit'] fails. *)
Definition unitOf (u : Param) : option TemperatureUnit :=
  match u with
  | Text s =>
      if String.eqb s "celsius" then Some celsius
      else if String.eqb s "fahrenheit" then Some fahrenheit
      else None
  | _ => None
  end.

(** The default of a destructuring, [{ p = d }]: taken when the property
    is [undefined]. *)
Definition orDefault (p d : Param) : Param :=
  match p with
  | Absent => d
  | _ => p
  end.

Record Query : Set := mkQuery {
  queryLocation : Param;
  queryUnit : Param
}.

Definition badRequest (toISOString : Z -> string) (now : Z) (status : Z)
  (message : string) : Handled :=
  Sent {| status := status;
          body := JsonError (errorResponse toISOString now message None JsUndefined) |}.

Definition okResponse (toISOString : Z -> string) (now : Z)
  (weatherData : WeatherData) : Handled :=
  Sent {| status := 200;
          body := JsonSuccess (successResponse toISOString now weatherData None) |}.

(** Lines 131-138 of the controller: the two assignments to the reading.
    The conversion of a temperature of a reading is finite unless the
    temperature is beyond any the slot can hold. *)
Definition inUnit (unit : TemperatureUnit) (weatherData : WeatherData)
  : WeatherData :=
  if unit_eqb unit fahrenheit && unit_eqb (temperatureUnit weatherData) celsius
  then
    {| temperature :=
         stored
           (convertTemperature
              {| value := Finite (temperature weatherData);
                 from := celsius; to := fahrenheit |});
       temperatureUnit := fahrenheit;
       location := location weatherData;
       lastUpdate := lastUpdate weatherData;
       connectionStatus := connectionStatus weatherData |}
  else weatherData.

(** [now] is the clock read by [fetchWeatherData], [now'] the one read by
    the handler's own call of [getCachedWeatherData], [sent] the one read
    when the response is built.  The reading the handler assigns to is an
    object of its own: the service stores and returns spread copies. *)
Definition getCurrentWeather (toISOString : Z -> string) (fetch : Fetch)
  (now now' sent : Z) (query : Query) : M Handled :=
  (try
     (let unit := orDefault (queryUnit query) (Text "celsius") in
      match nonEmptyText (queryLocation query) with
      | None => ret (badRequest toISOString sent 400 "locationRequired")
      | Some loc =>
          match unitOf unit with
          | None => ret (badRequest toISOString sent 400 "invalidUnit")
          | Some unit =>
              fetched <-
                (try (weatherData <- fetchWeatherData fetch now loc ;;
                      ret (inr weatherData))
                 catch (fun _ =>
                   cached <- hasCachedData ;;
                   if cached
                   then (weatherData <- getCachedWeatherData now' ;;
                         ret (inr weatherData))
                   else ret (inl (badRequest toISOString sent 503
                                    "weatherApiRequestFailed")))) ;;
              match fetched with
              | inl response => ret response
              | inr weatherData =>
                  ret (okResponse toISOString sent (inUnit unit weatherData))
              end
          end
      end)
   catch (fun error => ret (Next error)))%service.

(** [location] is the property of that name of [req.body], an object. *)
Definition refreshWeather (toISOString : Z -> string) (fetch : Fetch)
  (now sent : Z) (location : Param) : M Handled :=
  (try
     (match nonEmptyText location with
      | None => ret (badRequest toISOString sent 400 "locationRequired")
      | Some loc =>
          weatherData <- fetchWeatherData fetch now loc ;;
          ret (okResponse toISOString sent weatherData)
      end)
   catch (fun error =>
     if String.eqb error "weatherApiRequestFailed"
     then ret (badRequest toISOString sent 503 "weatherApiRequestFailed")
     else if String.eqb error "temperatureOutOfRange"
     then ret (badRequest toISOString sent 400 "temperatureOutOfRange")
     else ret (Next error)))%service.

(** ** Calls that leave the slot alone *)

(** A call that is no [clearCache] and no successful fetch. *)
Definition quiet (c : Call) : Prop :=
  match c with
  | FetchWeatherData fetch _ loc => exists error, FetchFails fetch loc error
  | ClearCache => False
  | _ => True
  end.

(** ** Sample requests *)

Definition isoSample : Z -> string :=
  fun ms => if ms <? 5000 then "1970-01-01T00:00:04.000Z"
            else "1970-01-01T00:00:05.000Z".

Definition sampleQuery (loc unit : string) : Query :=
  {| queryLocation := Text loc; queryUnit := Text unit |}.

(** * Properties *)

(** ** Rounding to one decimal place *)

Lemma Qlt_bool_iff (x y : Q) : Qlt_bool x y = true <-> (x < y)%Q.
Proof.
  unfold Qlt_bool. rewrite Qlt_alt.
  destruct (x ?= y)%Q; split; congruence.
Qed.

Lemma Qlt_bool_false_iff (x y : Q) : Qlt_bool x y = false <-> (y <= x)%Q.
Proof.
  rewrite <- not_true_iff_false, Qlt_bool_iff. split.
  - apply Qnot_lt_le.
  - apply Qle_not_lt.
Qed.

Lemma outOfRange_true_iff (t : Q) :
  outOfRange t = true <-> (t < -90 \/ 60 < t)%Q.
Proof.
  unfold outOfRange. now rewrite orb_true_iff, !Qlt_bool_iff.
Qed.

Lemma outOfRange_false_iff (t : Q) :
  outOfRange t = false <-> (-90 <= t <= 60)%Q.
Proof.
  unfold outOfRange. now rewrite orb_false_iff, !Qlt_bool_false_iff.
Qed.

Lemma parseFloat1_eq (n : Z) : (parseFloat1 n == inject_Z n / 10)%Q.
Proof.
  unfold parseFloat1. rewrite Qred_correct.
  unfold Qeq, Qdiv, Qmult, Qinv, inject_Z. simpl. lia.
Qed.

Lemma Qfloor_half_lower (y : Q) : (inject_Z (Qfloor (y + (1 # 2))) <= y + (1 # 2))%Q.
Proof. apply Qfloor_le. Qed.

Lemma Qfloor_half_upper (y : Q) : (y - (1 # 2) < inject_Z (Qfloor (y + (1 # 2))))%Q.
Proof.
  pose proof (Qlt_floor (y + (1 # 2))) as H.
  rewrite inject_Z_plus in H. change (inject_Z 1) with 1%Q in H. lra.
Qed.

(** The integer [toFixed1 x] is within one half of [10 x]. *)
Lemma toFixed1_near (x : Q) :
  (x * 10 - (1 # 2) <= inject_Z (toFixed1 x) <= x * 10 + (1 # 2))%Q.
Proof.
  unfold toFixed1. destruct (Qle_bool 0 x).
  - pose proof (Qfloor_half_lower (x * 10)).
    pose proof (Qfloor_half_upper (x * 10)). lra.
  - rewrite inject_Z_opp.
    pose proof (Qfloor_half_lower (- x * 10)).
    pose proof (Qfloor_half_upper (- x * 10)). lra.
Qed.

(** [round1 x] is a whole number of tenths within 0.05 of [x]. *)
Lemma round1_near (x : Q) : (Qabs (round1 x - x) <= 1 # 20)%Q.
Proof.
  unfold round1. rewrite parseFloat1_eq.
  pose proof (toFixed1_near x) as [Hl Hu].
  apply Qabs_Qle_condition. by_tenth. split; lra.
Qed.

Lemma round1_tenths (x : Q) : (round1 x * 10 == inject_Z (toFixed1 x))%Q.
Proof. unfold round1. rewrite parseFloat1_eq. field. Qed.

Lemma toFixed1_comp (x y : Q) : (x == y)%Q -> toFixed1 x = toFixed1 y.
Proof.
  intros H. unfold toFixed1.
  assert (Hb : Qle_bool 0 x = Qle_bool 0 y).
  { apply eq_true_iff_eq. rewrite !Qle_bool_iff. now rewrite H. }
  rewrite Hb. destruct (Qle_bool 0 y).
  - apply Qfloor_comp. now rewrite H.
  - f_equal. apply Qfloor_comp. now rewrite H.
Qed.

(** Equal numbers round to the same fraction in lowest terms. *)
Lemma round1_comp (x y : Q) : (x == y)%Q -> round1 x = round1 y.
Proof. intros H. unfold round1. now rewrite (toFixed1_comp x y H). Qed.

(** A whole number of tenths prints as itself. *)
Lemma toFixed1_tenths (n : Z) : toFixed1 (inject_Z n / 10) = n.
Proof.
  unfold toFixed1. destruct (Qle_bool 0 (inject_Z n / 10)).
  - rewrite (Qfloor_comp _ (inject_Z n + (1 # 2))) by field.
    pose proof (Qfloor_half_lower (inject_Z n)) as Hl.
    pose proof (Qfloor_half_upper (inject_Z n)) as Hu.
    set (k := Qfloor (inject_Z n + (1 # 2))) in *.
    assert (inject_Z k < inject_Z (n + 1))%Q
      by (rewrite inject_Z_plus; change (inject_Z 1) with 1%Q; lra).
    assert (inject_Z (n - 1) < inject_Z k)%Q
      by (unfold Z.sub; rewrite inject_Z_plus, inject_Z_opp;
          change (inject_Z 1) with 1%Q; lra).
    rewrite <- Zlt_Qlt in *. lia.
  - rewrite (Qfloor_comp _ (inject_Z (- n) + (1 # 2)))
      by (rewrite inject_Z_opp; field).
    pose proof (Qfloor_half_lower (inject_Z (- n))) as Hl.
    pose proof (Qfloor_half_upper (inject_Z (- n))) as Hu.
    set (k := Qfloor (inject_Z (- n) + (1 # 2))) in *.
    assert (inject_Z k < inject_Z (- n + 1))%Q
      by (rewrite inject_Z_plus; change (inject_Z 1) with 1%Q; lra).
    assert (inject_Z (- n - 1) < inject_Z k)%Q
      by (unfold Z.sub; rewrite inject_Z_plus, (inject_Z_opp 1);
          change (inject_Z 1) with 1%Q; lra).
    rewrite <- Zlt_Qlt in *. lia.
Qed.

Lemma round1_idempotent (x : Q) : round1 (round1 x) = round1 x.
Proof.
  unfold round1 at 1 3. f_equal.
  rewrite (toFixed1_comp _ (inject_Z (toFixed1 x) / 10)).
  - apply toFixed1_tenths.
  - unfold round1. apply parseFloat1_eq.
Qed.

(** Rounding keeps a reading inside the accepted interval, whose ends are
    whole numbers of tenths. *)
Lemma round1_range (x : Q) :
  (-90 <= x <= 60)%Q -> (-90 <= round1 x <= 60)%Q.
Proof.
  intros [Hl Hu].
  pose proof (toFixed1_near x) as [Nl Nu].
  assert (Hz : -900 <= toFixed1 x <= 600).
  { split.
    - assert (inject_Z (-901) < inject_Z (toFixed1 x))%Q
        by (change (inject_Z (-901)) with (-901)%Q; lra).
      rewrite <- Zlt_Qlt in *. lia.
    - assert (inject_Z (toFixed1 x) < inject_Z 601)%Q
        by (change (inject_Z 601) with 601%Q; lra).
      rewrite <- Zlt_Qlt in *. lia. }
  unfold round1. rewrite parseFloat1_eq.
  destruct Hz as [Zl Zu].
  rewrite Zle_Qle in Zl, Zu.
  change (inject_Z (-900)) with (-900)%Q in Zl.
  change (inject_Z 600) with 600%Q in Zu. by_tenth. lra.
Qed.

(** ** Sample roundings *)

Example round1_down : round1 (2134 # 100) = (213 # 10)%Q.
Proof. reflexivity. Qed.

Example round1_half_up : round1 (25 # 100) = (3 # 10)%Q.
Proof. reflexivity. Qed.

Example round1_half_away : round1 (- (325 # 100)) = (- (33 # 10))%Q.
Proof. reflexivity. Qed.

Example round1_whole : round1 60 = 60%Q.
Proof. reflexivity. Qed.

(** ** Running the service *)

Lemma fetchFresh_fails fetch now loc error (s : Cache) :
  FetchFails fetch loc error ->
  fetchFresh fetch now loc s = (Thrown error, s).
Proof.
  intros H. run_service.
  destruct H as [e Hf | r Hf Hok | r e Hf Hok Hj | r d Hf Hok Hj Hr];
    rewrite Hf; try rewrite Hok; try rewrite Hj; try rewrite Hr; reflexivity.
Qed.

Lemma fetchFresh_succeeds fetch now loc data (s : Cache) :
  FetchSucceeds fetch loc data ->
  fetchFresh fetch now loc s = (Returned (weatherDataOf data), freshSlot data now).
Proof.
  intros [r Hf Hok Hj Hr]. run_service.
  rewrite Hf, Hok, Hj, Hr. reflexivity.
Qed.

(** Every call to the provider ends in one of the two ways. *)
Lemma fetch_fails_or_succeeds (fetch : Fetch) (loc : string) :
  (exists error, FetchFails fetch loc error) \/
  (exists data, FetchSucceeds fetch loc data).
Proof.
  destruct (fetch loc) as [e | r] eqn:Hf.
  - left. exists e. now apply TransportError.
  - destruct (ok r) eqn:Hok.
    + destruct (json r) as [e | d] eqn:Hj.
      * left. exists e. now apply UnreadableBody with r.
      * destruct (outOfRange (temp_c d)) eqn:Hr.
        -- left. eexists. now apply TemperatureOutOfRange with r d.
        -- right. exists d. now apply Accepted with r.
    + left. eexists. now apply NonSuccessStatus with r.
Qed.

(** The block of the [try] throws in these cases only. *)
Lemma fetchFresh_throws_iff fetch now loc error (s : Cache) :
  result (fetchFresh fetch now loc s) = Thrown error <->
  FetchFails fetch loc error.
Proof.
  split.
  - intros Ht.
    destruct (fetch_fails_or_succeeds fetch loc) as [[e H] | [data H]].
    + rewrite (fetchFresh_fails fetch now loc e s H) in Ht.
      injection Ht as <-. exact H.
    + rewrite (fetchFresh_succeeds fetch now loc data s H) in Ht.
      discriminate Ht.
  - intros H. now rewrite (fetchFresh_fails fetch now loc error s H).
Qed.

Lemma fetchWeatherData_fails fetch now loc error (s : Cache) :
  FetchFails fetch loc error ->
  fetchWeatherData fetch now loc s = fallback now error s.
Proof.
  intros H. unfold fetchWeatherData, try_catch.
  now rewrite (fetchFresh_fails fetch now loc error s H).
Qed.

Lemma fetchWeatherData_succeeds fetch now loc data (s : Cache) :
  FetchSucceeds fetch loc data ->
  fetchWeatherData fetch now loc s =
  (Returned (weatherDataOf data), freshSlot data now).
Proof.
  intros H. unfold fetchWeatherData, try_catch.
  now rewrite (fetchFresh_succeeds fetch now loc data s H).
Qed.

Lemma getCachedWeatherData_reads now (s : Cache) :
  cacheAfter (getCachedWeatherData now s) = s.
Proof. run_service. now destruct s. Qed.

Lemma fallback_reads now error (s : Cache) :
  cacheAfter (fallback now error s) = s.
Proof. run_service. now destruct s. Qed.

Lemma cacheStatus_cases (cacheAge : Z) :
  cacheStatus cacheAge = if cacheAge <=? oneHour then offline else outdated.
Proof.
  unfold cacheStatus, oneHour, twentyFourHours.
  destruct (Z.gtb_spec cacheAge (24 * 60 * 60 * 1000));
    destruct (Z.gtb_spec cacheAge (60 * 60 * 1000));
    destruct (Z.leb_spec cacheAge (60 * 60 * 1000)); try reflexivity; lia.
Qed.

Lemma cacheStatus_not_online (cacheAge : Z) :
  cacheStatus cacheAge = offline \/ cacheStatus cacheAge = outdated.
Proof.
  rewrite cacheStatus_cases. destruct (cacheAge <=? oneHour); auto.
Qed.

(** ** The slot along a sequence of calls *)

(** A call leaves the slot as it was, empties it, or fills it from a
    reading that passed the validation. *)
Lemma step_cases (s : Cache) (c : Call) :
  step s c = s \/ step s c = None \/
  exists data now, outOfRange (temp_c data) = false /\ step s c = freshSlot data now.
Proof.
  destruct c as [fetch now loc | now | params | |]; simpl.
  - destruct (fetch_fails_or_succeeds fetch loc) as [[error H] | [data H]].
    + left. rewrite (fetchWeatherData_fails fetch now loc error s H).
      apply fallback_reads.
    + right; right. exists data, now. split.
      * now destruct H.
      * now rewrite (fetchWeatherData_succeeds fetch now loc data s H).
  - left. apply getCachedWeatherData_reads.
  - now left.
  - now left.
  - right; now left.
Qed.

Lemma run_snoc (calls : list Call) (c : Call) :
  run (calls ++ [c]) = step (run calls) c.
Proof. unfold run. now rewrite fold_left_app. Qed.

(** The slot is empty or holds what one validated fetch wrote. *)
Lemma run_fresh (calls : list Call) :
  run calls = None \/
  exists data now, outOfRange (temp_c data) = false /\ run calls = freshSlot data now.
Proof.
  induction calls as [| c calls IH] using rev_ind.
  - now left.
  - rewrite run_snoc.
    destruct (step_cases (run calls) c) as [H | [H | H]]; rewrite ?H; auto.
Qed.

Lemma freshSlot_valid (data : WeatherApiResponse) (now : Z) :
  outOfRange (temp_c data) = false -> validSlot (freshSlot data now).
Proof.
  intros H. apply outOfRange_false_iff in H. simpl.
  repeat split; try apply round1_range; try tauto.
  apply round1_idempotent.
Qed.

Lemma run_valid (calls : list Call) : validSlot (run calls).
Proof.
  destruct (run_fresh calls) as [H | (data & now & Hr & H)]; rewrite H.
  - exact I.
  - now apply freshSlot_valid.
Qed.

(** On a valid slot every reading [fetchWeatherData] returns is in range. *)
Lemma fetchWeatherData_returns_in_range fetch now loc (s : Cache) w :
  validSlot s ->
  result (fetchWeatherData fetch now loc s) = Returned w ->
  (-90 <= temperature w <= 60)%Q.
Proof.
  intros Hs Hw.
  destruct (fetch_fails_or_succeeds fetch loc) as [[error H] | [data H]].
  - rewrite (fetchWeatherData_fails fetch now loc error s H) in Hw.
    destruct s as [cached |]; [| discriminate Hw].
    injection Hw as <-. simpl. apply Hs.
  - rewrite (fetchWeatherData_succeeds fetch now loc data s H) in Hw.
    injection Hw as <-. simpl. apply round1_range.
    destruct H as [r _ _ _ Hr]. now apply outOfRange_false_iff.
Qed.

(** ** Binary64 rounding *)

Lemma pow2_pos (z : Z) : (0 < pow2 z)%Q.
Proof. apply Qpower_0_lt. reflexivity. Qed.

Lemma pow2_le (a b : Z) : a <= b -> (pow2 a <= pow2 b)%Q.
Proof. intros H. apply Qpower_le_compat_l; [exact H | discriminate]. Qed.

Lemma pow2_add (a b : Z) : (pow2 (a + b) == pow2 a * pow2 b)%Q.
Proof. apply Qpower_plus. discriminate. Qed.

Lemma pow2_half (e : Z) : (pow2 (e - 1) == pow2 e * (1 # 2))%Q.
Proof. unfold Z.sub. rewrite pow2_add. reflexivity. Qed.

Lemma pow2_Z (n : Z) : 0 <= n -> (pow2 n == inject_Z (2 ^ n))%Q.
Proof. intros H. unfold pow2. now rewrite Zpower_Qpower. Qed.

Lemma roundEven_near (x : Q) :
  (- (1 # 2) <= inject_Z (roundEven x) - x <= 1 # 2)%Q.
Proof.
  unfold roundEven.
  pose proof (Qfloor_le x) as Hl. pose proof (Qlt_floor x) as Hu.
  rewrite inject_Z_plus in Hu. change (inject_Z 1) with 1%Q in Hu.
  set (f := Qfloor x) in *.
  destruct (x - inject_Z f ?= 1 # 2)%Q eqn:E.
  - apply Qeq_alt in E.
    destruct (Z.even f); [| rewrite inject_Z_plus; change (inject_Z 1) with 1%Q];
      split; lra.
  - apply Qlt_alt in E. split; lra.
  - apply Qgt_alt in E. rewrite inject_Z_plus. change (inject_Z 1) with 1%Q.
    split; lra.
Qed.

Lemma Qabs_Qmake (a : Z) (b : positive) :
  (Qabs (a # b) == inject_Z (Z.abs a) / inject_Z (Zpos b))%Q.
Proof. unfold Qabs. now rewrite (Qmake_Qdiv (Z.abs a) b). Qed.

(** The binade of a number that is not zero starts at or below it. *)
Lemma ilog2_lower (q : Q) : ~ (q == 0)%Q -> (pow2 (ilog2 q) <= Qabs q)%Q.
Proof.
  intros Hq. unfold ilog2.
  set (e := Z.log2 (Z.abs (Qnum q)) - Z.log2 (Zpos (Qden q))).
  destruct (Qle_bool (pow2 e) (Qabs q)) eqn:T.
  - now apply Qle_bool_iff.
  - clear T. destruct q as [a b]. subst e. cbn [Qnum Qden].
    assert (Ha : 0 < Z.abs a).
    { destruct (Z.eq_dec a 0) as [-> |]; [| lia].
      exfalso. apply Hq. reflexivity. }
    pose proof (Z.log2_spec (Z.abs a) Ha) as [La _].
    pose proof (Z.log2_spec (Zpos b) (Pos2Z.is_pos b)) as [_ Lb].
    pose proof (Z.log2_nonneg (Z.abs a)) as Na.
    pose proof (Z.log2_nonneg (Zpos b)) as Nb.
    set (la := Z.log2 (Z.abs a)) in *. set (lb := Z.log2 (Zpos b)) in *.
    replace (la - lb - 1) with (la + - (Z.succ lb)) by lia.
    rewrite pow2_add. unfold pow2 at 2. rewrite Qpower_opp.
    fold (pow2 (Z.succ lb)).
    rewrite (pow2_Z la Na), (pow2_Z (Z.succ lb)) by lia.
    rewrite Qabs_Qmake.
    assert (HB : (0 < inject_Z (2 ^ Z.succ lb))%Q).
    { rewrite <- (pow2_Z (Z.succ lb)) by lia. apply pow2_pos. }
    assert (Hb : (0 < inject_Z (Zpos b))%Q) by reflexivity.
    apply Qle_shift_div_l; [exact Hb |].
    rewrite <- Qmult_assoc, (Qmult_comm (/ _)), Qmult_assoc.
    apply Qle_shift_div_r; [exact HB |].
    rewrite <- !inject_Z_mult, <- Zle_Qle.
    assert (0 < 2 ^ la) by (apply Z.pow_pos_nonneg; lia).
    nia.
Qed.

Lemma ilog2_le (q : Q) (E : Z) :
  ~ (q == 0)%Q -> (Qabs q < pow2 (E + 1))%Q -> ilog2 q <= E.
Proof.
  intros Hq Hb. pose proof (ilog2_lower q Hq) as Hl.
  destruct (Z_le_gt_dec (ilog2 q) E) as [| Hgt]; [assumption |].
  exfalso.
  assert (Hp : (pow2 (E + 1) <= pow2 (ilog2 q))%Q) by (apply pow2_le; lia).
  lra.
Qed.

(** Rounding below the overflow threshold gives a finite number within
    half a unit in the last place of the binade. *)
Lemma binary64_error (q : Q) (E : Z) :
  -1022 <= E <= 1022 -> (Qabs q < pow2 (E + 1))%Q ->
  exists r, binary64 q = Finite r /\ (Qabs (r - q) <= pow2 (E - 53))%Q.
Proof.
  intros HE Hb. unfold binary64.
  destruct (Qeq_bool q 0) eqn:Hz.
  - apply Qeq_bool_iff in Hz. exists 0%Q. split; [reflexivity |].
    apply Qabs_Qle_condition. pose proof (pow2_pos (E - 53)).
    rewrite Hz. split; lra.
  - apply Qeq_bool_neq in Hz.
    pose proof (ilog2_le q E Hz Hb) as He.
    set (e := Z.max (ilog2 q) (-1022) - 52).
    assert (Hee : e - 1 <= E - 53) by (subst e; lia).
    pose proof (pow2_pos e) as Hp.
    pose proof (roundEven_near (q / pow2 e)) as [Dl Du].
    set (m := inject_Z (roundEven (q / pow2 e))) in *.
    assert (Hd : (m * pow2 e - q == (m - q / pow2 e) * pow2 e)%Q).
    { field. intros H0. rewrite H0 in Hp. discriminate Hp. }
    assert (Herr : (Qabs (m * pow2 e - q) <= pow2 (E - 53))%Q).
    { apply Qle_trans with (pow2 (e - 1)); [| now apply pow2_le].
      rewrite pow2_half, Hd. apply Qabs_Qle_condition. split.
      - setoid_replace (- (pow2 e * (1 # 2)))%Q
          with ((- (1 # 2)) * pow2 e)%Q by ring.
        apply Qmult_le_compat_r; [exact Dl | lra].
      - rewrite (Qmult_comm (pow2 e)).
        apply Qmult_le_compat_r; [exact Du | lra]. }
    assert (Hsmall : (Qabs (m * pow2 e) < pow2 1024)%Q).
    { apply Qabs_Qle_condition in Herr.
      apply Qabs_Qlt_condition in Hb.
      assert (H1 : (pow2 (E - 53) <= pow2 (E + 1))%Q) by (apply pow2_le; lia).
      assert (H2 : (pow2 (E + 1 + 1) <= pow2 1024)%Q) by (apply pow2_le; lia).
      rewrite (pow2_add (E + 1) 1) in H2. change (pow2 1) with 2%Q in H2.
      apply Qabs_Qlt_condition. split; lra. }
    destruct (Qle_bool (pow2 1024) (Qabs (m * pow2 e))) eqn:T.
    + apply Qle_bool_iff in T. lra.
    + exists (Qred (m * pow2 e)). split; [reflexivity |].
      now rewrite Qred_correct.
Qed.

(** Below 2^44 a rounding moves a value by at most 2^-10. *)
Lemma binary64_near_44 (y : Q) :
  (-17592186044416 < y < 17592186044416)%Q ->
  exists r, binary64 y = Finite r /\ (y - (1 # 1024) <= r <= y + (1 # 1024))%Q.
Proof.
  intros H.
  destruct (binary64_error y 43) as (r & Hr & He); [lia | |].
  - change (pow2 (43 + 1)) with 17592186044416%Q.
    now apply Qabs_Qlt_condition.
  - exists r. split; [exact Hr |].
    change (pow2 (43 - 53)) with (1 # 1024)%Q in He.
    apply Qabs_Qle_condition in He. split; lra.
Qed.

(** The celsius-to-fahrenheit formula in binary64, for a value of at most
    10^12 in size: finite and within 1/256 of the exact formula. *)
Lemma fahrenheit_near (v : Q) :
  (-1000000000000 <= v <= 1000000000000)%Q ->
  exists c,
    add64 (div64 (mul64 (double (Finite v)) 9) 5) 32 = Finite c /\
    (v * (9 # 5) + 32 - (1 # 256) <= c <= v * (9 # 5) + 32 + (1 # 256))%Q.
Proof.
  intros [Hl Hu]. unfold add64, div64, mul64, arith, double.
  round_step binary64_near_44 v x Hx Ex. rewrite Hx.
  round_step binary64_near_44 (x * 9)%Q a Ha Ea. rewrite Ha.
  round_step binary64_near_44 (a / 5)%Q b Hb Eb. rewrite Hb.
  round_step binary64_near_44 (b + 32)%Q c Hc Ec. rewrite Hc.
  exists c. split; [reflexivity |]. split; lra.
Qed.

(** The fahrenheit-to-celsius formula in binary64, for a value of at most
    2 * 10^12 in size: finite and within 1/400 of the exact formula. *)
Lemma celsius_near (v : Q) :
  (-2000000000000 <= v <= 2000000000000)%Q ->
  exists c,
    div64 (mul64 (sub64 (double (Finite v)) 32) 5) 9 = Finite c /\
    ((v - 32) * (5 # 9) - (1 # 400) <= c <= (v - 32) * (5 # 9) + (1 # 400))%Q.
Proof.
  intros [Hl Hu]. unfold sub64, div64, mul64, arith, double.
  round_step binary64_near_44 v x Hx Ex. rewrite Hx.
  round_step binary64_near_44 (x - 32)%Q a Ha Ea. rewrite Ha.
  round_step binary64_near_44 (a * 5)%Q b Hb Eb. rewrite Hb.
  round_step binary64_near_44 (b / 9)%Q c Hc Ec. rewrite Hc.
  exists c. split; [reflexivity |]. split; lra.
Qed.

Lemma round1_bounds (x : Q) : (x - (1 # 20) <= round1 x <= x + (1 # 20))%Q.
Proof.
  pose proof (round1_near x) as H. apply Qabs_Qle_condition in H.
  split; lra.
Qed.


Lemma roundNumber_idempotent (x : Number) :
  roundNumber (roundNumber x) = roundNumber x.
Proof. destruct x; simpl; [now rewrite round1_idempotent | reflexivity ..]. Qed.

(** Sample binary64 numbers: 0.1, the largest one, the halfway point to
    2^1024 and the smallest one. *)
Example binary64_tenth :
  binary64 (1 # 10) = Finite (3602879701896397 # 36028797018963968).
Proof. vm_compute. reflexivity. Qed.

Example binary64_largest :
  binary64 (inject_Z (2 ^ 1024 - 2 ^ 970 - 1)) =
  Finite (inject_Z (2 ^ 1024 - 2 ^ 971)).
Proof. vm_compute. reflexivity. Qed.

Example binary64_overflow :
  binary64 (inject_Z (2 ^ 1024 - 2 ^ 970)) = Infinity false.
Proof. vm_compute. reflexivity. Qed.

Example binary64_smallest :
  binary64 (3 # (2 ^ 1075)) = Finite (1 # (2 ^ 1073)).
Proof. vm_compute. reflexivity. Qed.

(** * The claims *)

(** C1: when the call to the provider fails for any reason (transport
    error, non-success status, unreadable body or out-of-range
    temperature), [fetchWeatherData] with a populated slot returns what
    [getCachedWeatherData()] returns, a reading whose status is [offline]
    or [outdated], and with an empty slot throws the original error. *)
Theorem fetchWeatherData_failure_falls_back_or_propagates
  fetch now loc error (s : Cache) :
  FetchFails fetch loc error ->
  match s with
  | Some _ =>
      result (fetchWeatherData fetch now loc s) =
      result (getCachedWeatherData now s) /\
      exists w, result (fetchWeatherData fetch now loc s) = Returned w /\
                (connectionStatus w = offline \/ connectionStatus w = outdated)
  | None => result (fetchWeatherData fetch now loc s) = Thrown error
  end.
Proof.
  intros H. rewrite (fetchWeatherData_fails fetch now loc error s H).
  destruct s as [cached |]; [| reflexivity].
  split; [reflexivity |].
  exists (withStatus (reading cached) (cacheStatus (now - cachedAt cached))).
  split; [reflexivity |]. apply cacheStatus_not_online.
Qed.

Lemma fetchWeatherData_failure_falls_back_or_propagates_witness :
  FetchFails provider "Furnace Creek" "temperatureOutOfRange" /\
  result (fetchWeatherData provider 2000 "Furnace Creek" lisbonSlot) =
  result (getCachedWeatherData 2000 lisbonSlot) /\
  exists w,
    result (fetchWeatherData provider 2000 "Furnace Creek" lisbonSlot) = Returned w /\
    (connectionStatus w = offline \/ connectionStatus w = outdated).
Proof.
  assert (H : FetchFails provider "Furnace Creek" "temperatureOutOfRange").
  { apply TemperatureOutOfRange
      with (response := {| ok := true; json := inr furnace |}) (data := furnace);
      reflexivity. }
  split; [exact H |].
  exact (fetchWeatherData_failure_falls_back_or_propagates
           provider 2000 "Furnace Creek" "temperatureOutOfRange" lisbonSlot H).
Defined.

(** C2: [getCachedWeatherData] throws [noCachedDataAvailable] exactly when
    the slot is empty; otherwise it returns a reading with the temperature,
    unit, location and last update of the cached one and a
    [connectionStatus] that is [offline] when [now - cachedAt] is at most
    one hour and [outdated] when it is more (between 1 and 24 hours as
    well as beyond 24 hours).  An age of 30 minutes gives [offline], of 2
    hours and of 25 hours [outdated], whatever status is stored. *)
Theorem getCachedWeatherData_status now (s : Cache) :
  ((exists error, result (getCachedWeatherData now s) = Thrown error) <->
   s = None) /\
  match s with
  | None => result (getCachedWeatherData now s) = Thrown "noCachedDataAvailable"
  | Some cached =>
      let cacheAge := now - cachedAt cached in
      exists w,
        result (getCachedWeatherData now s) = Returned w /\
        temperature w = temperature (reading cached) /\
        temperatureUnit w = temperatureUnit (reading cached) /\
        location w = location (reading cached) /\
        lastUpdate w = lastUpdate (reading cached) /\
        (cacheAge <= oneHour -> connectionStatus w = offline) /\
        (oneHour < cacheAge <= twentyFourHours ->
         connectionStatus w = outdated) /\
        (twentyFourHours < cacheAge -> connectionStatus w = outdated)
  end /\
  (forall t u l d label stamp,
      let slot :=
        Some {| reading := mkWeatherData t u l d label;
                cachedAt := stamp |} in
      result (getCachedWeatherData (stamp + 30 * 60 * 1000) slot) =
      Returned (mkWeatherData t u l d offline) /\
      result (getCachedWeatherData (stamp + 2 * 60 * 60 * 1000) slot) =
      Returned (mkWeatherData t u l d outdated) /\
      result (getCachedWeatherData (stamp + 25 * 60 * 60 * 1000) slot) =
      Returned (mkWeatherData t u l d outdated)).
Proof.
  split; [| split].
  - destruct s as [cached |]; simpl; split.
    + intros [error H]. discriminate H.
    + discriminate.
    + reflexivity.
    + intros _. now exists "noCachedDataAvailable".
  - destruct s as [cached |]; [| reflexivity].
    cbv zeta.
    exists (mkWeatherData
              (temperature (reading cached)) (temperatureUnit (reading cached))
              (location (reading cached)) (lastUpdate (reading cached))
              (cacheStatus (now - cachedAt cached))).
    split; [reflexivity |]. cbn [temperature temperatureUnit location
                                   lastUpdate connectionStatus].
    repeat (split; [reflexivity |]).
    rewrite cacheStatus_cases. unfold oneHour, twentyFourHours.
    destruct (Z.leb_spec (now - cachedAt cached) (60 * 60 * 1000));
      repeat split; intros; try reflexivity; lia.
  - intros t u l d st c. cbv zeta. run_service.
    cbn [fst reading cachedAt].
    replace (c + 30 * 60 * 1000 - c) with 1800000 by lia.
    replace (c + 2 * 60 * 60 * 1000 - c) with 7200000 by lia.
    replace (c + 25 * 60 * 60 * 1000 - c) with 90000000 by lia.
    repeat split.
Qed.

(** C3: on a successful fetch [fetchWeatherData] returns a reading in
    [celsius], [online], whose temperature is the provider's [temp_c]
    rounded to one decimal place (a whole number of tenths within 0.05 of
    it), and the slot becomes that reading stamped with the current time,
    whatever it held before; after two successful fetches in a row the
    slot holds the second reading alone. *)
Theorem fetchWeatherData_success_overwrites fetch now loc data (s : Cache) :
  FetchSucceeds fetch loc data ->
  let w :=
    {| temperature := round1 (temp_c data);
       temperatureUnit := celsius;
       location := name data ++ ", " ++ string_or (region data) (country data);
       lastUpdate := last_updated data;
       connectionStatus := online |} in
  fetchWeatherData fetch now loc s =
  (Returned w, Some {| reading := w; cachedAt := now |}) /\
  (temperature w * 10 == inject_Z (toFixed1 (temp_c data)))%Q /\
  (Qabs (temperature w - temp_c data) <= 1 # 20)%Q /\
  forall fetch' now' loc' data',
    FetchSucceeds fetch' loc' data' ->
    cacheAfter (fetchWeatherData fetch' now' loc'
                  (cacheAfter (fetchWeatherData fetch now loc s))) =
    Some {| reading := weatherDataOf data'; cachedAt := now' |}.
Proof.
  intros H w. repeat split.
  - apply (fetchWeatherData_succeeds fetch now loc data s H).
  - apply round1_tenths.
  - apply round1_near.
  - intros fetch' now' loc' data' H'.
    now rewrite (fetchWeatherData_succeeds fetch' now' loc' data' _ H').
Qed.

Lemma fetchWeatherData_success_overwrites_witness :
  FetchSucceeds provider "Lisbon" lisbon /\
  fetchWeatherData provider 1000 "Lisbon" None =
  (Returned (mkWeatherData (213 # 10) celsius "Lisbon, Lisboa"
               "2024-05-01 12:00" online),
   Some {| reading := mkWeatherData (213 # 10) celsius "Lisbon, Lisboa"
                        "2024-05-01 12:00" online;
           cachedAt := 1000 |}).
Proof.
  assert (H : FetchSucceeds provider "Lisbon" lisbon).
  { apply Accepted with (response := {| ok := true; json := inr lisbon |});
      reflexivity. }
  split; [exact H |].
  exact (proj1 (fetchWeatherData_success_overwrites
                  provider 1000 "Lisbon" lisbon None H)).
Defined.

(** C4: for an answer with a success status and a readable body, the block
    of the [try] throws [temperatureOutOfRange] if and only if [temp_c] is
    outside the closed interval from -90 to 60.  Outside it
    [fetchWeatherData] falls back or propagates as the slot tells, so 61
    and -91 are failures; inside it, the ends -90 and 60 included, the
    call succeeds with the rounded reading.  After any sequence of calls
    no reading it returns has a temperature outside the interval. *)
Theorem fetchWeatherData_range_validation
  fetch now loc response data (s : Cache) :
  fetch loc = inr response -> ok response = true -> json response = inr data ->
  (result (fetchFresh fetch now loc s) = Thrown "temperatureOutOfRange" <->
   ~ (-90 <= temp_c data <= 60)%Q) /\
  (~ (-90 <= temp_c data <= 60)%Q ->
   fetchWeatherData fetch now loc s =
   match s with
   | Some _ => getCachedWeatherData now s
   | None => (Thrown "temperatureOutOfRange", None)
   end) /\
  ((temp_c data == 61)%Q \/ (temp_c data == -91)%Q ->
   result (fetchFresh fetch now loc s) = Thrown "temperatureOutOfRange") /\
  ((-90 <= temp_c data <= 60)%Q ->
   fetchWeatherData fetch now loc s =
   (Returned (weatherDataOf data), freshSlot data now)) /\
  ((temp_c data == 60)%Q ->
   exists w, result (fetchWeatherData fetch now loc s) = Returned w /\
             temperature w = 60%Q /\ connectionStatus w = online) /\
  ((temp_c data == -90)%Q ->
   exists w, result (fetchWeatherData fetch now loc s) = Returned w /\
             temperature w = (-90)%Q /\ connectionStatus w = online) /\
  (forall calls w,
      s = run calls ->
      result (fetchWeatherData fetch now loc s) = Returned w ->
      (-90 <= temperature w <= 60)%Q).
Proof.
  intros Hf Hok Hj.
  assert (Hout : ~ (-90 <= temp_c data <= 60)%Q ->
                 FetchFails fetch loc "temperatureOutOfRange").
  { intros Hn. apply TemperatureOutOfRange with response data; auto.
    apply not_false_iff_true. now rewrite outOfRange_false_iff. }
  assert (Hin : (-90 <= temp_c data <= 60)%Q -> FetchSucceeds fetch loc data).
  { intros Hr. apply Accepted with response; auto.
    now apply outOfRange_false_iff. }
  assert (Hend : forall q : Q,
             (-90 <= q <= 60)%Q -> (temp_c data == q)%Q ->
             exists w, result (fetchWeatherData fetch now loc s) = Returned w /\
                       temperature w = round1 q /\ connectionStatus w = online).
  { intros q Hq He. exists (weatherDataOf data).
    rewrite (fetchWeatherData_succeeds fetch now loc data s)
      by (apply Hin; now rewrite He).
    repeat split. simpl. now apply round1_comp. }
  split; [| split; [| split; [| split; [| split; [| split]]]]].
  - split.
    + intros Ht Hr.
      rewrite (fetchFresh_succeeds fetch now loc data s (Hin Hr)) in Ht.
      discriminate Ht.
    + intros Hn. now rewrite (fetchFresh_fails fetch now loc _ s (Hout Hn)).
  - intros Hn. rewrite (fetchWeatherData_fails fetch now loc _ s (Hout Hn)).
    now destruct s.
  - intros He.
    rewrite (fetchFresh_fails fetch now loc "temperatureOutOfRange" s);
      [reflexivity |].
    apply Hout. intros [Hl Hu]. destruct He as [He | He]; rewrite He in *; lra.
  - intros Hr. apply (fetchWeatherData_succeeds fetch now loc data s (Hin Hr)).
  - apply (Hend 60%Q). lra.
  - apply (Hend (-90)%Q). lra.
  - intros calls w -> Hw.
    apply (fetchWeatherData_returns_in_range fetch now loc (run calls) w);
      [apply run_valid | exact Hw].
Qed.

Lemma fetchWeatherData_range_validation_witness :
  result (fetchFresh provider 2000 "Furnace Creek" lisbonSlot) =
  Thrown "temperatureOutOfRange" /\
  fetchWeatherData provider 2000 "Furnace Creek" lisbonSlot =
  getCachedWeatherData 2000 lisbonSlot.
Proof.
  pose proof (fetchWeatherData_range_validation
                provider 2000 "Furnace Creek"
                {| ok := true; json := inr furnace |} furnace lisbonSlot
                eq_refl eq_refl eq_refl) as (_ & Hfall & Hthrow & _).
  split.
  - apply Hthrow. left. reflexivity.
  - apply Hfall. intros [_ Hu]. vm_compute in Hu. apply Hu. reflexivity.
Defined.


(** At a tie of the exact formula the rounded binary64 value decides:
    for -88.25 C the exact formula gives -126.85, which rounds to -126.9;
    binary64 arithmetic gives a value just above -126.85 and the call
    returns -126.8 (634/5).  -129.19 F is -89.6 C (448/5). *)
Example convertTemperature_at_ties :
  convertTemperature (mkParams (Finite (- (8825 # 100))) celsius fahrenheit) =
  Finite (- (634 # 5)) /\
  round1 (- (8825 # 100) * 9 / 5 + 32) = (- (1269 # 10))%Q /\
  convertTemperature (mkParams (Finite (- (12919 # 100))) fahrenheit celsius) =
  Finite (- (448 # 5)).
Proof. repeat split; vm_compute; reflexivity. Qed.

(** C6: converting from celsius to celsius gives the value rounded to one
    decimal place, and for every value [v] of at most 10^12 in size
    converting to fahrenheit (a finite value within 0.06 of the exact
    formula) and back gives a finite value within 0.1 of [v], as the
    decimal read and as the binary64 number it stands for. *)
Theorem convertTemperature_round_trip_bounded :
  (forall v, convertTemperature (mkParams v celsius celsius) = roundNumber v) /\
  (forall v,
      (-1000000000000 <= v <= 1000000000000)%Q ->
      exists f r d,
        convertTemperature (mkParams (Finite v) celsius fahrenheit) = Finite f /\
        (Qabs (f - (v * 9 / 5 + 32)) <= 3 # 50)%Q /\
        convertTemperature
          (mkParams (convertTemperature (mkParams (Finite v) celsius fahrenheit))
             fahrenheit celsius) = Finite r /\
        (Qabs (r - v) <= 1 # 10)%Q /\
        double (Finite r) = Finite d /\
        (Qabs (d - v) <= 1 # 10)%Q).
Proof.
  split; [reflexivity |].
  intros v [Hl Hu]. cbn [convertTemperature unit_eqb andb].
  destruct (fahrenheit_near v) as (c & Hc & Ec); [split; lra |].
  rewrite Hc. cbn [roundNumber].
  pose proof (round1_bounds c) as Ef. set (f := round1 c) in *.
  destruct (celsius_near f) as (g & Hg & Eg); [split; lra |].
  rewrite Hg. cbn [roundNumber].
  pose proof (round1_bounds g) as Er. set (r := round1 g) in *.
  destruct (binary64_near_44 r) as (d & Hd & Ed); [split; lra |].
  exists f, r, d. repeat split.
  - apply Qabs_Qle_condition.
    unfold Qdiv. change (/ 5)%Q with (1 # 5)%Q. split; lra.
  - apply Qabs_Qle_condition. split; lra.
  - exact Hd.
  - apply Qabs_Qle_condition. split; lra.
Qed.

(** The round trip is not within 0.1 for large values: at 1.7e308 the
    multiplication by 9 overflows and the round trip gives an infinity;
    at 323274035085978.5 it gives 323274035085978.4, which stands for the
    binary64 number 323274035085978.375, 1/8 away. *)
Lemma convertTemperature_round_trip_fails :
  convertTemperature
    (mkParams (convertTemperature
                 (mkParams (Finite (inject_Z (17 * 10 ^ 307))) celsius fahrenheit))
       fahrenheit celsius) = Infinity false /\
  ~ (exists r,
        convertTemperature
          (mkParams (convertTemperature
                       (mkParams (Finite (inject_Z (17 * 10 ^ 307)))
                          celsius fahrenheit))
             fahrenheit celsius) = Finite r /\
        (Qabs (r - inject_Z (17 * 10 ^ 307)) <= 1 # 10)%Q) /\
  binary64 (646548070171957 # 2) = Finite (646548070171957 # 2) /\
  double
    (convertTemperature
       (mkParams (convertTemperature
                    (mkParams (Finite (646548070171957 # 2)) celsius fahrenheit))
          fahrenheit celsius)) = Finite (2586192280687827 # 8) /\
  ~ (Qabs ((2586192280687827 # 8) - (646548070171957 # 2)) <= 1 # 10)%Q.
Proof.
  split; [vm_compute; reflexivity |].
  split; [intros (r & H & _); vm_compute in H; discriminate H |].
  split; [vm_compute; reflexivity |]. split; [vm_compute; reflexivity |].
  vm_compute. intros H. apply H. reflexivity.
Qed.

(** C7: the classification of lines 99-104, with its separate tests for
    more than 24 hours and for more than one hour, gives for every cache
    age the label of the single-threshold function ([offline] up to one
    hour, [outdated] beyond): the 24-hour threshold cannot be observed,
    neither in the label nor in what [getCachedWeatherData] returns. *)
Theorem cacheStatus_is_single_threshold :
  (forall cacheAge, cacheStatus cacheAge = singleThresholdStatus cacheAge) /\
  (forall now (cached : CachedWeatherData),
      getCachedWeatherData now (Some cached) =
      (Returned (withStatus (reading cached)
                   (singleThresholdStatus (now - cachedAt cached))),
       Some cached)).
Proof.
  split.
  - apply cacheStatus_cases.
  - intros now cached. run_service.
    now rewrite cacheStatus_cases.
Qed.

(** C8: [clearCache] returns normally and leaves the slot empty from any
    state; right after it [hasCachedData()] returns [false] and
    [getCachedWeatherData()] throws [noCachedDataAvailable];
    [hasCachedData] returns whether the slot is populated and leaves the
    slot as it was. *)
Theorem clearCache_empties_slot now (s : Cache) :
  clearCache s = (Returned tt, None) /\
  result (hasCachedData (cacheAfter (clearCache s))) = Returned false /\
  result (getCachedWeatherData now (cacheAfter (clearCache s))) =
  Thrown "noCachedDataAvailable" /\
  hasCachedData s =
  (Returned (match s with Some _ => true | None => false end), s).
Proof. repeat split. Qed.

(** C9: after any sequence of the five operations from the empty slot, a
    populated slot holds a record with status [online], unit [celsius] and
    a temperature between -90 and 60 that is a whole number of tenths: the
    slot is empty or is exactly what one validated fetch wrote, so
    [offline] and [outdated] occur only in what [getCachedWeatherData]
    returns. *)
Theorem cache_slot_invariant (calls : list Call) (cached : CachedWeatherData) :
  run calls = Some cached ->
  connectionStatus (reading cached) = online /\
  temperatureUnit (reading cached) = celsius /\
  (-90 <= temperature (reading cached) <= 60)%Q /\
  round1 (temperature (reading cached)) = temperature (reading cached) /\
  (exists data now,
      outOfRange (temp_c data) = false /\
      cached = {| reading := weatherDataOf data; cachedAt := now |}) /\
  (forall now w,
      result (getCachedWeatherData now (run calls)) = Returned w ->
      connectionStatus w = offline \/ connectionStatus w = outdated).
Proof.
  intros H.
  pose proof (run_valid calls) as Hv. rewrite H in Hv.
  destruct Hv as (Hs & Hu & Hr & Hd).
  repeat split; try assumption; try apply Hr.
  - destruct (run_fresh calls) as [Hn | (data & now & Ho & Hf)].
    + congruence.
    + exists data, now. split; [exact Ho |].
      unfold freshSlot in Hf. congruence.
  - intros now w Hw. rewrite H in Hw. injection Hw as <-.
    apply cacheStatus_not_online.
Qed.

Lemma cache_slot_invariant_witness :
  run [FetchWeatherData provider 1000 "Lisbon";
       GetCachedWeatherData 2000;
       FetchWeatherData provider 3000 "Oslo";
       HasCachedData;
       FetchWeatherData provider 4000 "Furnace Creek"] =
  Some {| reading := mkWeatherData (- (33 # 10)) celsius "Oslo, Norway"
                       "2024-05-01 12:15" online;
          cachedAt := 3000 |} /\
  (-90 <= - (33 # 10) <= 60)%Q.
Proof.
  split; [reflexivity |].
  exact (proj1 (proj2 (proj2
    (cache_slot_invariant
       [FetchWeatherData provider 1000 "Lisbon";
        GetCachedWeatherData 2000;
        FetchWeatherData provider 3000 "Oslo";
        HasCachedData;
        FetchWeatherData provider 4000 "Furnace Creek"]
       _ eq_refl)))).
Defined.

(** C10: a failing call to the provider (transport error, non-success
    status, unreadable body or out-of-range temperature) leaves the slot,
    contents and [cachedAt] alike, as it was, whether [fetchWeatherData]
    falls back on a populated slot or throws on an empty one. *)
Theorem fetchWeatherData_failure_keeps_slot fetch now loc error (s : Cache) :
  FetchFails fetch loc error ->
  cacheAfter (fetchWeatherData fetch now loc s) = s /\
  cacheAfter (fetchFresh fetch now loc s) = s.
Proof.
  intros H. split.
  - rewrite (fetchWeatherData_fails fetch now loc error s H).
    apply fallback_reads.
  - now rewrite (fetchFresh_fails fetch now loc error s H).
Qed.

Lemma fetchWeatherData_failure_keeps_slot_witness :
  FetchFails provider "Atlantis" "weatherApiRequestFailed" /\
  cacheAfter (fetchWeatherData provider 5000 "Atlantis" lisbonSlot) = lisbonSlot /\
  cacheAfter (fetchFresh provider 5000 "Atlantis" lisbonSlot) = lisbonSlot.
Proof.
  assert (H : FetchFails provider "Atlantis" "weatherApiRequestFailed").
  { apply NonSuccessStatus
      with (response := {| ok := false; json := inl "Unexpected token" |});
      reflexivity. }
  split; [exact H |].
  exact (fetchWeatherData_failure_keeps_slot
           provider 5000 "Atlantis" "weatherApiRequestFailed" lisbonSlot H).
Defined.

(** * Further properties *)

(** ** Rounding and conversion *)

Lemma Qle_bool_false (x y : Q) : Qle_bool x y = false -> (y < x)%Q.
Proof.
  intros H. apply Qnot_le_lt. intros Hle.
  apply Qle_bool_iff in Hle. congruence.
Qed.

Lemma Qfloor_half_nonneg (y : Q) : (0 <= y)%Q -> 0 <= Qfloor (y + (1 # 2)).
Proof.
  intros H. change 0 with (Qfloor 0). apply Qfloor_resp_le. lra.
Qed.

Lemma toFixed1_le (x y : Q) : (x <= y)%Q -> toFixed1 x <= toFixed1 y.
Proof.
  intros H. unfold toFixed1.
  destruct (Qle_bool 0 x) eqn:Hx; destruct (Qle_bool 0 y) eqn:Hy.
  - apply Qfloor_resp_le. lra.
  - apply Qle_bool_iff in Hx. apply Qle_bool_false in Hy. lra.
  - apply Qle_bool_false in Hx. apply Qle_bool_iff in Hy.
    assert (Hx' : (0 <= - x * 10)%Q) by lra.
    assert (Hy' : (0 <= y * 10)%Q) by lra.
    apply Qfloor_half_nonneg in Hx', Hy'. lia.
  - assert (Qfloor (- y * 10 + (1 # 2)) <= Qfloor (- x * 10 + (1 # 2)))
      by (apply Qfloor_resp_le; lra).
    lia.
Qed.

(** The integer within less than one half of [10 x] is the one printed. *)
Lemma toFixed1_unique (x : Q) (n : Z) :
  (inject_Z n - (1 # 2) < x * 10 < inject_Z n + (1 # 2))%Q -> toFixed1 x = n.
Proof.
  intros [Hl Hu]. pose proof (toFixed1_near x) as [Nl Nu].
  assert (inject_Z (n - 1) < inject_Z (toFixed1 x))%Q
    by (unfold Z.sub; rewrite inject_Z_plus, inject_Z_opp;
        change (inject_Z 1) with 1%Q; lra).
  assert (inject_Z (toFixed1 x) < inject_Z (n + 1))%Q
    by (rewrite inject_Z_plus; change (inject_Z 1) with 1%Q; lra).
  rewrite <- Zlt_Qlt in *. lia.
Qed.

Lemma round1_le (x y : Q) : (x <= y)%Q -> (round1 x <= round1 y)%Q.
Proof.
  intros H. unfold round1. rewrite !parseFloat1_eq. by_tenth.
  pose proof (toFixed1_le x y H) as Hz. rewrite Zle_Qle in Hz. lra.
Qed.

(** X3: a conversion between equal units gives a value that a second such
    conversion leaves as it is, and so does every result of
    [convertTemperature]: results are whole numbers of tenths. *)
Theorem convertTemperature_result_is_rounded
  (params : TemperatureConversionParams) (u : TemperatureUnit) :
  convertTemperature (mkParams (convertTemperature params) u u) =
  convertTemperature params.
Proof.
  destruct params as [x [] []], u; cbn [convertTemperature unit_eqb andb];
    apply roundNumber_idempotent.
Qed.

(** X4: on a celsius value that is a whole number of tenths and at most
    10^12 in size, as every cached temperature is, converting to
    fahrenheit gives a finite value within 0.06 of the exact formula, and
    converting that back gives the value itself, not only a value near
    it. *)
Theorem convertTemperature_round_trip_exact (v : Q) :
  (round1 v == v)%Q ->
  (-1000000000000 <= v <= 1000000000000)%Q ->
  exists f r,
    convertTemperature (mkParams (Finite v) celsius fahrenheit) = Finite f /\
    (Qabs (f - (v * 9 / 5 + 32)) <= 3 # 50)%Q /\
    convertTemperature (mkParams (Finite f) fahrenheit celsius) = Finite r /\
    (r == v)%Q.
Proof.
  intros Hv [Hl Hu]. cbn [convertTemperature unit_eqb andb].
  destruct (fahrenheit_near v) as (c & Hc & Ec); [split; lra |].
  rewrite Hc. cbn [roundNumber].
  pose proof (round1_bounds c) as Ef. set (f := round1 c) in *.
  destruct (celsius_near f) as (g & Hg & Eg); [split; lra |].
  exists f, (round1 g). rewrite Hg. cbn [roundNumber].
  split; [reflexivity |]. split; [| split; [reflexivity |]].
  - apply Qabs_Qle_condition.
    unfold Qdiv. change (/ 5)%Q with (1 # 5)%Q. split; lra.
  - assert (Hn : (v * 10 == inject_Z (toFixed1 v))%Q).
    { rewrite <- Hv at 1. apply round1_tenths. }
    assert (Hg' : toFixed1 g = toFixed1 v)
      by (apply toFixed1_unique; split; lra).
    unfold round1 at 1. rewrite Hg'. exact Hv.
Qed.

Lemma convertTemperature_round_trip_exact_witness :
  (round1 (-883 # 10) == -883 # 10)%Q /\
  (-1000000000000 <= -883 # 10 <= 1000000000000)%Q /\
  exists f r,
    convertTemperature (mkParams (Finite (-883 # 10)) celsius fahrenheit) =
    Finite f /\
    (Qabs (f - ((-883 # 10) * 9 / 5 + 32)) <= 3 # 50)%Q /\
    convertTemperature (mkParams (Finite f) fahrenheit celsius) = Finite r /\
    (r == -883 # 10)%Q.
Proof.
  assert (H : (round1 (-883 # 10) == -883 # 10)%Q) by reflexivity.
  assert (B : (-1000000000000 <= -883 # 10 <= 1000000000000)%Q)
    by (split; vm_compute; discriminate).
  split; [exact H |]. split; [exact B |].
  exact (convertTemperature_round_trip_exact (-883 # 10) H B).
Defined.

(** The fahrenheit value of a celsius value of the accepted interval. *)
Lemma celsius_reading_to_fahrenheit (v : Q) :
  (-90 <= v <= 60)%Q ->
  exists r,
    convertTemperature (mkParams (Finite v) celsius fahrenheit) = Finite r /\
    (-130 <= r <= 140)%Q.
Proof.
  intros [Hl Hu]. cbn [convertTemperature unit_eqb andb].
  destruct (fahrenheit_near v) as (c & Hc & Ec); [split; lra |].
  rewrite Hc. exists (round1 c). split; [reflexivity |].
  assert (Lo : (round1 (-130 - (1 # 256)) <= round1 c)%Q)
    by (apply round1_le; lra).
  assert (Hi : (round1 c <= round1 (140 + (1 # 256)))%Q)
    by (apply round1_le; lra).
  change (round1 (-130 - (1 # 256))) with (-130)%Q in Lo.
  change (round1 (140 + (1 # 256))) with 140%Q in Hi.
  split; assumption.
Qed.

(** X5: a celsius temperature in the accepted interval from -90 to 60
    converts to a finite fahrenheit temperature between -130 and 140,
    and the ends -90 and 60 convert to the ends -130 and 140. *)
Theorem convertTemperature_fahrenheit_range (v : Q) :
  (-90 <= v <= 60)%Q ->
  (exists r,
      convertTemperature (mkParams (Finite v) celsius fahrenheit) = Finite r /\
      (-130 <= r <= 140)%Q) /\
  convertTemperature (mkParams (Finite (-90)) celsius fahrenheit) =
  Finite (-130) /\
  convertTemperature (mkParams (Finite 60) celsius fahrenheit) = Finite 140.
Proof.
  intros H. split; [now apply celsius_reading_to_fahrenheit |].
  split; vm_compute; reflexivity.
Qed.

Lemma convertTemperature_fahrenheit_range_witness :
  (-90 <= - (8825 # 100) <= 60)%Q /\
  exists r,
    convertTemperature
      (mkParams (Finite (- (8825 # 100))) celsius fahrenheit) = Finite r /\
    (-130 <= r <= 140)%Q.
Proof.
  assert (H : (-90 <= - (8825 # 100) <= 60)%Q)
    by (split; vm_compute; discriminate).
  split; [exact H |].
  exact (proj1 (convertTemperature_fahrenheit_range (- (8825 # 100)) H)).
Defined.

(** X6: [fetchWeatherData] throws exactly when the slot is empty and the
    call to the provider fails, and then it throws the provider's error;
    on a populated slot it returns a reading whatever the provider does. *)
Theorem fetchWeatherData_throws_iff fetch now loc error (s : Cache) :
  (result (fetchWeatherData fetch now loc s) = Thrown error <->
   s = None /\ FetchFails fetch loc error) /\
  (forall cached,
      exists w, result (fetchWeatherData fetch now loc (Some cached)) = Returned w).
Proof.
  split; [split |].
  - intros Ht.
    destruct (fetch_fails_or_succeeds fetch loc) as [[e H] | [data H]].
    + rewrite (fetchWeatherData_fails fetch now loc e s H) in Ht.
      destruct s as [cached |]; [discriminate Ht |].
      injection Ht as <-. now split.
    + rewrite (fetchWeatherData_succeeds fetch now loc data s H) in Ht.
      discriminate Ht.
  - intros [-> H].
    now rewrite (fetchWeatherData_fails fetch now loc error None H).
  - intros cached.
    destruct (fetch_fails_or_succeeds fetch loc) as [[e H] | [data H]].
    + rewrite (fetchWeatherData_fails fetch now loc e _ H). now eexists.
    + rewrite (fetchWeatherData_succeeds fetch now loc data _ H). now eexists.
Qed.

(** A call of [fetchWeatherData] returns with the slot populated or throws
    with the slot empty. *)
Lemma fetchWeatherData_outcome fetch now loc (s : Cache) :
  (exists w cached,
      fetchWeatherData fetch now loc s = (Returned w, Some cached)) \/
  (exists error,
      s = None /\ FetchFails fetch loc error /\
      fetchWeatherData fetch now loc s = (Thrown error, None)).
Proof.
  destruct (fetch_fails_or_succeeds fetch loc) as [[e H] | [data H]].
  - rewrite (fetchWeatherData_fails fetch now loc e s H).
    destruct s as [cached |].
    + left. now eexists _, cached.
    + right. now exists e.
  - left. rewrite (fetchWeatherData_succeeds fetch now loc data s H).
    now eexists _, _.
Qed.

(** X7: right after a call of [fetchWeatherData], [hasCachedData()] tells
    whether the call returned: [true] after a return, [false] after a
    throw. *)
Theorem hasCachedData_after_fetch fetch now loc (s : Cache) :
  let r := fetchWeatherData fetch now loc s in
  ((exists w, result r = Returned w) <->
   result (hasCachedData (cacheAfter r)) = Returned true) /\
  ((exists error, result r = Thrown error) <->
   result (hasCachedData (cacheAfter r)) = Returned false).
Proof.
  cbv zeta.
  destruct (fetchWeatherData_outcome fetch now loc s)
    as [(w & cached & H) | (e & _ & _ & H)]; rewrite H; simpl.
  - split; split; try discriminate.
    + reflexivity.
    + now exists w.
    + intros [e He]. discriminate He.
  - split; split; try discriminate.
    + intros [w Hw]. discriminate Hw.
    + reflexivity.
    + now exists e.
Qed.

(** X8: the reading [fetchWeatherData] returns is [online] exactly when
    the provider's answer was accepted, and it is then the reading built
    from that answer; every other reading returned comes from the slot. *)
Theorem fetchWeatherData_online_iff_fresh fetch now loc (s : Cache) w :
  result (fetchWeatherData fetch now loc s) = Returned w ->
  (connectionStatus w = online <->
   exists data, FetchSucceeds fetch loc data /\ w = weatherDataOf data) /\
  (connectionStatus w <> online ->
   exists cached, s = Some cached /\
                  temperature w = temperature (reading cached) /\
                  temperatureUnit w = temperatureUnit (reading cached) /\
                  location w = location (reading cached) /\
                  lastUpdate w = lastUpdate (reading cached)).
Proof.
  intros Hw.
  destruct (fetch_fails_or_succeeds fetch loc) as [[e H] | [data H]].
  - rewrite (fetchWeatherData_fails fetch now loc e s H) in Hw.
    destruct s as [cached |]; [| discriminate Hw].
    injection Hw as <-. split; [split |].
    + simpl. intros Ho.
      destruct (cacheStatus_not_online (now - cachedAt cached)); congruence.
    + intros (data & Hs & _).
      destruct H as [e Hf | r Hf Hok | r e Hf Hok Hj | r d Hf Hok Hj Hr];
        destruct Hs as [r' Hf' Hok' Hj' Hr']; congruence.
    + intros _. now exists cached.
  - rewrite (fetchWeatherData_succeeds fetch now loc data s H) in Hw.
    injection Hw as <-. split; [split |].
    + intros _. now exists data.
    + reflexivity.
    + simpl. congruence.
Qed.

Lemma fetchWeatherData_online_iff_fresh_witness :
  result (fetchWeatherData provider 2000 "Atlantis" lisbonSlot) =
  Returned (withStatus (weatherDataOf lisbon) offline) /\
  (connectionStatus (withStatus (weatherDataOf lisbon) offline) = online <->
   exists data,
     FetchSucceeds provider "Atlantis" data /\
     withStatus (weatherDataOf lisbon) offline = weatherDataOf data).
Proof.
  split; [reflexivity |].
  exact (proj1 (fetchWeatherData_online_iff_fresh
                  provider 2000 "Atlantis" lisbonSlot
                  (withStatus (weatherDataOf lisbon) offline) eq_refl)).
Defined.

(** X9: a failed fetch after a successful one returns the reading of the
    successful one, labelled by the time between the two calls: [offline]
    up to one hour, [outdated] beyond. *)
Theorem fetchWeatherData_failure_after_success
  fetch now loc data fetch' now' loc' error (s : Cache) :
  FetchSucceeds fetch loc data ->
  FetchFails fetch' loc' error ->
  fetchWeatherData fetch' now' loc'
    (cacheAfter (fetchWeatherData fetch now loc s)) =
  (Returned
     {| temperature := round1 (temp_c data);
        temperatureUnit := celsius;
        location := location (weatherDataOf data);
        lastUpdate := last_updated data;
        connectionStatus :=
          if now' - now <=? oneHour then offline else outdated |},
   Some {| reading := weatherDataOf data; cachedAt := now |}).
Proof.
  intros Hs Hf.
  rewrite (fetchWeatherData_succeeds fetch now loc data s Hs).
  rewrite (fetchWeatherData_fails fetch' now' loc' error _ Hf).
  unfold cacheAfter, freshSlot. simpl snd. run_service.
  cbn [cachedAt reading]. now rewrite cacheStatus_cases.
Qed.

Lemma fetchWeatherData_failure_after_success_witness :
  FetchSucceeds provider "Lisbon" lisbon /\
  FetchFails provider "Atlantis" "weatherApiRequestFailed" /\
  result (fetchWeatherData provider 4000000 "Atlantis"
            (cacheAfter (fetchWeatherData provider 1000 "Lisbon" None))) =
  Returned (mkWeatherData (213 # 10) celsius "Lisbon, Lisboa"
              "2024-05-01 12:00" outdated).
Proof.
  assert (Hs : FetchSucceeds provider "Lisbon" lisbon).
  { apply Accepted with (response := {| ok := true; json := inr lisbon |});
      reflexivity. }
  assert (Hf : FetchFails provider "Atlantis" "weatherApiRequestFailed").
  { apply NonSuccessStatus
      with (response := {| ok := false; json := inl "Unexpected token" |});
      reflexivity. }
  split; [exact Hs |]. split; [exact Hf |].
  exact (f_equal fst
           (fetchWeatherData_failure_after_success
              provider 1000 "Lisbon" lisbon provider 4000000 "Atlantis"
              "weatherApiRequestFailed" None Hs Hf)).
Defined.

(** X10: for one stored record the label only ages: if the reading
    [getCachedWeatherData] returns has the status [outdated] at some
    time, the reading it returns at every later time has it too; with a
    clock not past [cachedAt] the status is [offline].  The status stored
    in the slot plays no part. *)
Theorem getCachedWeatherData_label_ages now now' (cached : CachedWeatherData) :
  now <= now' ->
  (forall w,
      result (getCachedWeatherData now (Some cached)) = Returned w ->
      connectionStatus w = outdated ->
      exists w',
        result (getCachedWeatherData now' (Some cached)) = Returned w' /\
        connectionStatus w' = outdated) /\
  (now' <= cachedAt cached ->
   exists w,
     result (getCachedWeatherData now (Some cached)) = Returned w /\
     connectionStatus w = offline).
Proof.
  intros Hle. run_service. cbn [fst]. split.
  - intros w Hw Hs. injection Hw as <-. cbn [withStatus connectionStatus] in Hs.
    eexists. split; [reflexivity |]. cbn [withStatus connectionStatus].
    rewrite cacheStatus_cases in *. unfold oneHour in *.
    destruct (Z.leb_spec (now - cachedAt cached) (60 * 60 * 1000));
      [discriminate Hs |].
    destruct (Z.leb_spec (now' - cachedAt cached) (60 * 60 * 1000));
      [lia | reflexivity].
  - intros Hb. eexists. split; [reflexivity |].
    cbn [withStatus connectionStatus]. rewrite cacheStatus_cases.
    unfold oneHour.
    destruct (Z.leb_spec (now - cachedAt cached) (60 * 60 * 1000));
      [reflexivity | lia].
Qed.

Lemma getCachedWeatherData_label_ages_witness :
  4000000 <= 5000000 /\
  result (getCachedWeatherData 4000000 lisbonSlot) =
  Returned (mkWeatherData (213 # 10) celsius "Lisbon, Lisboa"
              "2024-05-01 12:00" outdated) /\
  exists w',
    result (getCachedWeatherData 5000000 lisbonSlot) = Returned w' /\
    connectionStatus w' = outdated.
Proof.
  assert (H : 4000000 <= 5000000) by lia.
  split; [exact H |]. split; [reflexivity |].
  exact (proj1 (getCachedWeatherData_label_ages 4000000 5000000
                  {| reading := weatherDataOf lisbon; cachedAt := 1000 |} H)
           (mkWeatherData (213 # 10) celsius "Lisbon, Lisboa"
              "2024-05-01 12:00" outdated) eq_refl eq_refl).
Defined.

(** ** Sequences of calls *)

Lemma quiet_step (s : Cache) (c : Call) : quiet c -> step s c = s.
Proof.
  destruct c as [fetch now loc | now | params | |]; simpl; intros H.
  - destruct H as [error H].
    rewrite (fetchWeatherData_fails fetch now loc error s H).
    apply fallback_reads.
  - apply getCachedWeatherData_reads.
  - reflexivity.
  - reflexivity.
  - contradiction.
Qed.

Lemma quiet_fold (post : list Call) (s : Cache) :
  Forall quiet post -> fold_left step post s = s.
Proof.
  induction 1 as [| c post Hc _ IH]; simpl.
  - reflexivity.
  - now rewrite (quiet_step s c Hc).
Qed.

Lemma call_cases (c : Call) :
  quiet c \/ c = ClearCache \/
  exists fetch now loc data,
    c = FetchWeatherData fetch now loc /\ FetchSucceeds fetch loc data.
Proof.
  destruct c as [fetch now loc | now | params | |]; simpl; auto.
  destruct (fetch_fails_or_succeeds fetch loc) as [H | [data H]].
  - now left.
  - right; right. now exists fetch, now, loc, data.
Qed.

(** X11: after any sequence of calls the slot holds a record exactly when
    some fetch of the sequence succeeded and no later call was a
    [clearCache] or another successful fetch; the record is then the
    reading of that fetch with its time.  Failed fetches, reads and
    conversions in between change nothing. *)
Theorem slot_holds_last_successful_fetch
  (calls : list Call) (cached : CachedWeatherData) :
  run calls = Some cached <->
  exists pre fetch now loc data post,
    calls = (pre ++ FetchWeatherData fetch now loc :: post)%list /\
    FetchSucceeds fetch loc data /\
    Forall quiet post /\
    cached = {| reading := weatherDataOf data; cachedAt := now |}.
Proof.
  split.
  - revert cached.
    induction calls as [| c calls IH] using rev_ind; intros cached H.
    + discriminate H.
    + rewrite run_snoc in H.
      destruct (call_cases c) as [Hq | [-> | (fetch & now & loc & data & -> & Hs)]].
      * rewrite (quiet_step _ c Hq) in H.
        destruct (IH cached H) as (pre & f & n & l & d & post & -> & Hs & Hp & ->).
        exists pre, f, n, l, d, (post ++ [c])%list. repeat split; auto.
        -- now rewrite <- app_assoc.
        -- apply Forall_app. split; auto.
      * discriminate H.
      * simpl in H.
        rewrite (fetchWeatherData_succeeds fetch now loc data _ Hs) in H.
        injection H as <-.
        exists calls, fetch, now, loc, data, []. repeat split; auto.
  - intros (pre & fetch & now & loc & data & post & -> & Hs & Hp & ->).
    unfold run. rewrite fold_left_app. simpl.
    rewrite (quiet_fold post _ Hp).
    now rewrite (fetchWeatherData_succeeds fetch now loc data _ Hs).
Qed.

(** ** The handlers *)

Lemma nonEmptyText_Text (loc : string) :
  nonEmpty loc = true -> nonEmptyText (Text loc) = Some loc.
Proof. intros H. simpl. now rewrite H. Qed.

(** With a location and a unit that pass the checks, the handler answers
    as [fetchWeatherData] does: the reading in the unit asked for, or
    status 503.  Its own fallback on the slot is never taken. *)
Lemma getCurrentWeather_valid
  toISOString fetch now now' sent loc unitParam unit (s : Cache) :
  nonEmpty loc = true ->
  unitOf (orDefault unitParam (Text "celsius")) = Some unit ->
  getCurrentWeather toISOString fetch now now' sent
    {| queryLocation := Text loc; queryUnit := unitParam |} s =
  match fetchWeatherData fetch now loc s with
  | (Returned w, s') =>
      (Returned (okResponse toISOString sent (inUnit unit w)), s')
  | (Thrown _, s') =>
      (Returned (badRequest toISOString sent 503 "weatherApiRequestFailed"), s')
  end.
Proof.
  intros Hl Hu. unfold getCurrentWeather.
  cbn [queryLocation queryUnit]. rewrite (nonEmptyText_Text loc Hl), Hu.
  unfold try_catch, bind, ret.
  destruct (fetchWeatherData_outcome fetch now loc s)
    as [(w & cached & H) | (e & _ & _ & H)]; rewrite H; reflexivity.
Qed.

Lemma refreshWeather_valid toISOString fetch now sent loc (s : Cache) :
  nonEmpty loc = true ->
  refreshWeather toISOString fetch now sent (Text loc) s =
  match fetchWeatherData fetch now loc s with
  | (Returned w, s') => (Returned (okResponse toISOString sent w), s')
  | (Thrown error, s') =>
      (Returned
         (if String.eqb error "weatherApiRequestFailed"
          then badRequest toISOString sent 503 "weatherApiRequestFailed"
          else if String.eqb error "temperatureOutOfRange"
          then badRequest toISOString sent 400 "temperatureOutOfRange"
          else Next error), s')
  end.
Proof.
  intros Hl. unfold refreshWeather. rewrite (nonEmptyText_Text loc Hl).
  unfold try_catch, bind, ret.
  destruct (fetchWeatherData fetch now loc s) as [[w | e] s'];
    [reflexivity |].
  destruct (String.eqb e "weatherApiRequestFailed"); [reflexivity |].
  destruct (String.eqb e "temperatureOutOfRange"); reflexivity.
Qed.

(** X12: both handlers answer a request whose location is absent, empty
    or not a string with status 400 and the message [locationRequired],
    before anything else is looked at: the unit is not checked, the
    provider is not asked and the slot stays as it was. *)
Theorem handlers_require_location
  toISOString fetch now now' sent location unit (s : Cache) :
  location = Absent \/ location = Text EmptyString \/ location = NotText ->
  let answer :=
    Sent {| status := 400;
            body := JsonError {| message := "locationRequired";
                                 code := None;
                                 details := None;
                                 timestamp := toISOString sent |} |} in
  getCurrentWeather toISOString fetch now now' sent
    {| queryLocation := location; queryUnit := unit |} s =
  (Returned answer, s) /\
  refreshWeather toISOString fetch now sent location s = (Returned answer, s).
Proof.
  intros [-> | [-> | ->]]; split; reflexivity.
Qed.

Lemma handlers_require_location_witness :
  (Text EmptyString = Absent \/ Text EmptyString = Text EmptyString \/
   Text EmptyString = NotText) /\
  refreshWeather isoSample provider 1000 5000 (Text EmptyString) lisbonSlot =
  (Returned (Sent {| status := 400;
           body := JsonError {| message := "locationRequired";
                                code := None;
                                details := None;
                                timestamp := "1970-01-01T00:00:05.000Z" |} |}),
   lisbonSlot).
Proof.
  assert (H : Text EmptyString = Absent \/
              Text EmptyString = Text EmptyString \/
              Text EmptyString = NotText) by (right; left; reflexivity).
  split; [exact H |].
  exact (proj2 (handlers_require_location
                  isoSample provider 1000 1000 5000 (Text EmptyString) Absent
                  lisbonSlot H)).
Defined.

(** X13: with a location that passes, [getCurrentWeather] answers a unit
    that is neither [celsius] nor [fahrenheit] (another string, or no
    string at all) with status 400 and the message [invalidUnit], without
    asking the provider or touching the slot; a unit left out counts as
    [celsius]. *)
Theorem getCurrentWeather_checks_unit
  toISOString fetch now now' sent loc unit (s : Cache) :
  nonEmpty loc = true ->
  (unit = NotText \/
   exists t, unit = Text t /\ t <> "celsius" /\ t <> "fahrenheit") ->
  getCurrentWeather toISOString fetch now now' sent
    {| queryLocation := Text loc; queryUnit := unit |} s =
  (Returned
     (Sent {| status := 400;
              body := JsonError {| message := "invalidUnit";
                                   code := None;
                                   details := None;
                                   timestamp := toISOString sent |} |}), s) /\
  getCurrentWeather toISOString fetch now now' sent
    {| queryLocation := Text loc; queryUnit := Absent |} s =
  getCurrentWeather toISOString fetch now now' sent
    {| queryLocation := Text loc; queryUnit := Text "celsius" |} s.
Proof.
  intros Hl Hu. split; [| reflexivity].
  unfold getCurrentWeather. cbn [queryLocation queryUnit].
  rewrite (nonEmptyText_Text loc Hl).
  assert (Hn : unitOf (orDefault unit (Text "celsius")) = None).
  { destruct Hu as [-> | (t & -> & Hc & Hf)]; [reflexivity |].
    simpl. apply String.eqb_neq in Hc, Hf. now rewrite Hc, Hf. }
  rewrite Hn. reflexivity.
Qed.

Lemma getCurrentWeather_checks_unit_witness :
  nonEmpty "Lisbon" = true /\
  (Text "kelvin" = NotText \/
   exists t, Text "kelvin" = Text t /\ t <> "celsius" /\ t <> "fahrenheit") /\
  getCurrentWeather isoSample provider 1000 1000 5000
    (sampleQuery "Lisbon" "kelvin") None =
  (Returned
     (Sent {| status := 400;
              body := JsonError {| message := "invalidUnit";
                                   code := None;
                                   details := None;
                                   timestamp := "1970-01-01T00:00:05.000Z" |} |}),
   None).
Proof.
  assert (Hu : Text "kelvin" = NotText \/
               exists t, Text "kelvin" = Text t /\
                         t <> "celsius" /\ t <> "fahrenheit").
  { right. exists "kelvin". repeat split; discriminate. }
  split; [reflexivity |]. split; [exact Hu |].
  exact (proj1 (getCurrentWeather_checks_unit
                  isoSample provider 1000 1000 5000 "Lisbon" (Text "kelvin")
                  None eq_refl Hu)).
Defined.

(** X14: with a location and a unit that pass the checks,
    [getCurrentWeather] never hands an error to [next] and never uses its
    own fallback on the slot: it sends status 200 with the reading
    [fetchWeatherData] returned, put in the unit asked for, or, when
    [fetchWeatherData] threw, status 503 with the message
    [weatherApiRequestFailed] whatever the error was; the slot is left as
    [fetchWeatherData] left it. *)
Theorem getCurrentWeather_answers_as_fetch
  toISOString fetch now now' sent loc unitParam unit (s : Cache) :
  nonEmpty loc = true ->
  unitOf (orDefault unitParam (Text "celsius")) = Some unit ->
  let query := {| queryLocation := Text loc; queryUnit := unitParam |} in
  let answer := getCurrentWeather toISOString fetch now now' sent query s in
  cacheAfter answer = cacheAfter (fetchWeatherData fetch now loc s) /\
  (forall w,
      result (fetchWeatherData fetch now loc s) = Returned w ->
      result answer =
      Returned
        (Sent {| status := 200;
                 body := JsonSuccess
                           {| data := inUnit unit w;
                              metadata :=
                                [("timestamp", JsString (toISOString sent))] |} |})) /\
  (forall error,
      result (fetchWeatherData fetch now loc s) = Thrown error ->
      result answer =
      Returned
        (Sent {| status := 503;
                 body := JsonError {| message := "weatherApiRequestFailed";
                                      code := None;
                                      details := None;
                                      timestamp := toISOString sent |} |})) /\
  (forall later,
      getCurrentWeather toISOString fetch now later sent query s = answer).
Proof.
  intros Hl Hu query answer. subst query answer.
  rewrite (getCurrentWeather_valid _ fetch now now' sent loc unitParam unit s Hl Hu).
  repeat split.
  - now destruct (fetchWeatherData fetch now loc s) as [[w | e] s'].
  - intros w Hw.
    destruct (fetchWeatherData fetch now loc s) as [[w' | e] s'];
      simpl in Hw; [| discriminate Hw].
    now injection Hw as ->.
  - intros e He.
    destruct (fetchWeatherData fetch now loc s) as [[w' | e'] s'];
      simpl in He; [discriminate He | reflexivity].
  - intros later.
    apply (getCurrentWeather_valid _ fetch now later sent loc unitParam unit s Hl Hu).
Qed.

Lemma getCurrentWeather_answers_as_fetch_witness :
  nonEmpty "Lisbon" = true /\
  unitOf (orDefault (Text "fahrenheit") (Text "celsius")) = Some fahrenheit /\
  getCurrentWeather isoSample provider 1000 1000 5000
    (sampleQuery "Lisbon" "fahrenheit") None =
  (Returned
     (Sent {| status := 200;
              body := JsonSuccess
                        {| data := mkWeatherData (703 # 10) fahrenheit
                                     "Lisbon, Lisboa" "2024-05-01 12:00" online;
                           metadata :=
                             [("timestamp",
                               JsString "1970-01-01T00:00:05.000Z")] |} |}),
   Some {| reading := mkWeatherData (213 # 10) celsius "Lisbon, Lisboa"
                        "2024-05-01 12:00" online;
           cachedAt := 1000 |}).
Proof.
  split; [reflexivity |]. split; [reflexivity |].
  pose proof (getCurrentWeather_answers_as_fetch
                isoSample provider 1000 1000 5000 "Lisbon" (Text "fahrenheit")
                fahrenheit None eq_refl eq_refl) as (Hc & Hr & _).
  specialize (Hr _ eq_refl). unfold result, cacheAfter in Hc, Hr.
  apply injective_projections; [exact Hr | exact Hc].
Defined.

Lemma fetchWeatherData_keeps_valid fetch now loc (s : Cache) :
  validSlot s -> validSlot (cacheAfter (fetchWeatherData fetch now loc s)).
Proof.
  intros Hs.
  destruct (fetch_fails_or_succeeds fetch loc) as [[e H] | [data H]].
  - rewrite (fetchWeatherData_fails fetch now loc e s H).
    now rewrite fallback_reads.
  - rewrite (fetchWeatherData_succeeds fetch now loc data s H).
    apply freshSlot_valid. now destruct H.
Qed.

Lemma fetchWeatherData_returns_celsius fetch now loc (s : Cache) w :
  validSlot s ->
  result (fetchWeatherData fetch now loc s) = Returned w ->
  temperatureUnit w = celsius.
Proof.
  intros Hs Hw.
  destruct (fetch_fails_or_succeeds fetch loc) as [[e H] | [data H]].
  - rewrite (fetchWeatherData_fails fetch now loc e s H) in Hw.
    destruct s as [cached |]; [| discriminate Hw].
    injection Hw as <-. simpl. apply Hs.
  - rewrite (fetchWeatherData_succeeds fetch now loc data s H) in Hw.
    now injection Hw as <-.
Qed.

(** X15: after any sequence of calls of the service, a reading that
    [getCurrentWeather] sends is in the unit the request asked for, with a
    temperature between -90 and 60 in celsius and between -130 and 140 in
    fahrenheit; the record in the slot stays in celsius, [online] and in
    range, also when fahrenheit was asked for. *)
Theorem getCurrentWeather_sends_requested_unit
  (calls : list Call) toISOString fetch now now' sent loc unitParam unit :
  nonEmpty loc = true ->
  unitOf (orDefault unitParam (Text "celsius")) = Some unit ->
  let answer :=
    getCurrentWeather toISOString fetch now now' sent
      {| queryLocation := Text loc; queryUnit := unitParam |} (run calls) in
  validSlot (cacheAfter answer) /\
  forall status response,
    result answer =
    Returned (Sent {| status := status; body := JsonSuccess response |}) ->
    status = 200 /\
    temperatureUnit (data response) = unit /\
    match unit with
    | celsius => (-90 <= temperature (data response) <= 60)%Q
    | fahrenheit => (-130 <= temperature (data response) <= 140)%Q
    end.
Proof.
  intros Hl Hu answer. subst answer.
  rewrite (getCurrentWeather_valid _ fetch now now' sent loc unitParam unit _ Hl Hu).
  pose proof (run_valid calls) as Hv.
  pose proof (fetchWeatherData_keeps_valid fetch now loc _ Hv) as Hk.
  pose proof (fetchWeatherData_returns_celsius fetch now loc (run calls)) as Hc.
  pose proof (fetchWeatherData_returns_in_range fetch now loc (run calls)) as Hr.
  destruct (fetchWeatherData fetch now loc (run calls)) as [[w | e] s'].
  - split; [exact Hk |]. intros st response H.
    unfold okResponse, successResponse in H. simpl in H.
    injection H as <- <-. split; [reflexivity |].
    specialize (Hc w Hv eq_refl). specialize (Hr w Hv eq_refl).
    cbn [data]. unfold inUnit. rewrite Hc.
    destruct unit; cbn [unit_eqb andb temperatureUnit temperature].
    + split; [exact Hc | exact Hr].
    + split; [reflexivity |].
      destruct (celsius_reading_to_fahrenheit (temperature w) Hr)
        as (r & Hconv & Hrange).
      now rewrite Hconv.
  - split; [exact Hk |]. intros st response H. discriminate H.
Qed.

Lemma getCurrentWeather_sends_requested_unit_witness :
  nonEmpty "Atlantis" = true /\
  unitOf (orDefault (Text "fahrenheit") (Text "celsius")) = Some fahrenheit /\
  (-130 <= 703 # 10 <= 140)%Q.
Proof.
  split; [reflexivity |]. split; [reflexivity |].
  pose proof (getCurrentWeather_sends_requested_unit
                [FetchWeatherData provider 1000 "Lisbon"]
                isoSample provider 2000 2000 5000 "Atlantis"
                (Text "fahrenheit") fahrenheit eq_refl eq_refl) as [_ H].
  exact (proj2 (proj2 (H 200 _ eq_refl))).
Defined.

(** X16: with a location that passes, [refreshWeather] sends status 200
    with the fresh reading, [online], when the provider's answer is
    accepted.  When the provider fails and the slot is populated it sends
    status 200 with the temperature, unit, location and last update of
    the stored reading and the status [offline] (age at most one hour) or
    [outdated], and leaves the slot as it was.  When the provider fails
    and the slot is empty, a non-success status gives 503
    [weatherApiRequestFailed], an out-of-range temperature gives 400
    [temperatureOutOfRange], and an error with another message is handed
    to [next]. *)
Theorem refreshWeather_outcomes toISOString fetch now sent loc (s : Cache) :
  nonEmpty loc = true ->
  let answer := refreshWeather toISOString fetch now sent (Text loc) s in
  (forall data,
      FetchSucceeds fetch loc data ->
      answer =
      (Returned
         (Sent {| status := 200;
                  body := JsonSuccess
                            {| data :=
                                 {| temperature := round1 (temp_c data);
                                    temperatureUnit := celsius;
                                    location := location (weatherDataOf data);
                                    lastUpdate := last_updated data;
                                    connectionStatus := online |};
                               metadata :=
                                 [("timestamp", JsString (toISOString sent))] |} |}),
       Some {| reading := weatherDataOf data; cachedAt := now |})) /\
  (forall error cached,
      FetchFails fetch loc error -> s = Some cached ->
      exists response,
        answer =
        (Returned (Sent {| status := 200; body := JsonSuccess response |}), s) /\
        temperature (data response) = temperature (reading cached) /\
        temperatureUnit (data response) = temperatureUnit (reading cached) /\
        location (data response) = location (reading cached) /\
        lastUpdate (data response) = lastUpdate (reading cached) /\
        connectionStatus (data response) =
        (if now - cachedAt cached <=? oneHour then offline else outdated) /\
        metadata response = [("timestamp", JsString (toISOString sent))]) /\
  (forall response,
      s = None -> fetch loc = inr response -> ok response = false ->
      answer =
      (Returned
         (Sent {| status := 503;
                  body := JsonError {| message := "weatherApiRequestFailed";
                                       code := None;
                                       details := None;
                                       timestamp := toISOString sent |} |}),
       None)) /\
  (forall response data,
      s = None -> fetch loc = inr response -> ok response = true ->
      json response = inr data -> outOfRange (temp_c data) = true ->
      answer =
      (Returned
         (Sent {| status := 400;
                  body := JsonError {| message := "temperatureOutOfRange";
                                       code := None;
                                       details := None;
                                       timestamp := toISOString sent |} |}),
       None)) /\
  (forall error,
      s = None -> FetchFails fetch loc error ->
      error <> "weatherApiRequestFailed" ->
      error <> "temperatureOutOfRange" ->
      answer = (Returned (Next error), None)).
Proof.
  intros Hl answer. subst answer.
  rewrite (refreshWeather_valid toISOString fetch now sent loc s Hl).
  split; [| split; [| split; [| split]]].
  - intros data H.
    now rewrite (fetchWeatherData_succeeds fetch now loc data s H).
  - intros error cached H ->.
    rewrite (fetchWeatherData_fails fetch now loc error _ H).
    run_service. eexists. split; [reflexivity |].
    cbn [data metadata successResponse spread fold_left withStatus
           temperature temperatureUnit location lastUpdate connectionStatus].
    repeat (split; [reflexivity |]). split; [| reflexivity].
    apply cacheStatus_cases.
  - intros r -> Hf Hok.
    now rewrite (fetchWeatherData_fails fetch now loc _ None
                   (NonSuccessStatus fetch loc r Hf Hok)).
  - intros r d -> Hf Hok Hj Hr.
    now rewrite (fetchWeatherData_fails fetch now loc _ None
                   (TemperatureOutOfRange fetch loc r d Hf Hok Hj Hr)).
  - intros error -> H Ha Hb.
    rewrite (fetchWeatherData_fails fetch now loc error None H).
    apply String.eqb_neq in Ha, Hb. simpl. now rewrite Ha, Hb.
Qed.

Lemma refreshWeather_outcomes_witness :
  nonEmpty "Atlantis" = true /\
  FetchFails provider "Atlantis" "weatherApiRequestFailed" /\
  exists response,
    refreshWeather isoSample provider 4000000 5000 (Text "Atlantis") lisbonSlot =
    (Returned (Sent {| status := 200; body := JsonSuccess response |}),
     lisbonSlot) /\
    temperature (data response) = (213 # 10)%Q /\
    connectionStatus (data response) = outdated.
Proof.
  assert (H : FetchFails provider "Atlantis" "weatherApiRequestFailed").
  { apply NonSuccessStatus
      with (response := {| ok := false; json := inl "Unexpected token" |});
      reflexivity. }
  split; [reflexivity |]. split; [exact H |].
  destruct (proj1 (proj2 (refreshWeather_outcomes
                            isoSample provider 4000000 5000 "Atlantis"
                            lisbonSlot eq_refl))
              "weatherApiRequestFailed"
              {| reading := weatherDataOf lisbon; cachedAt := 1000 |}
              H eq_refl)
    as (response & Ha & Ht & _ & _ & _ & Hs & _).
  exists response. split; [exact Ha |]. split; [exact Ht | exact Hs].
Defined.

(** X17: the two handlers report an out-of-range temperature on an empty
    slot differently: [getCurrentWeather] sends 503 with the message
    [weatherApiRequestFailed], [refreshWeather] sends 400 with the
    message [temperatureOutOfRange]. *)
Theorem handlers_differ_on_out_of_range
  toISOString fetch now now' sent loc unitParam unit response data :
  nonEmpty loc = true ->
  unitOf (orDefault unitParam (Text "celsius")) = Some unit ->
  fetch loc = inr response -> ok response = true ->
  json response = inr data -> outOfRange (temp_c data) = true ->
  result (getCurrentWeather toISOString fetch now now' sent
            {| queryLocation := Text loc; queryUnit := unitParam |} None) =
  Returned
    (Sent {| status := 503;
             body := JsonError {| message := "weatherApiRequestFailed";
                                  code := None;
                                  details := None;
                                  timestamp := toISOString sent |} |}) /\
  result (refreshWeather toISOString fetch now sent (Text loc) None) =
  Returned
    (Sent {| status := 400;
             body := JsonError {| message := "temperatureOutOfRange";
                                  code := None;
                                  details := None;
                                  timestamp := toISOString sent |} |}).
Proof.
  intros Hl Hu Hf Hok Hj Hr.
  pose proof (TemperatureOutOfRange fetch loc response data Hf Hok Hj Hr) as H.
  rewrite (getCurrentWeather_valid _ fetch now now' sent loc unitParam unit _ Hl Hu).
  rewrite (refreshWeather_valid toISOString fetch now sent loc None Hl).
  rewrite (fetchWeatherData_fails fetch now loc _ None H).
  split; reflexivity.
Qed.

Lemma handlers_differ_on_out_of_range_witness :
  outOfRange (temp_c furnace) = true /\
  result (getCurrentWeather isoSample provider 1000 1000 5000
            (sampleQuery "Furnace Creek" "celsius") None) =
  Returned
    (Sent {| status := 503;
             body := JsonError {| message := "weatherApiRequestFailed";
                                  code := None;
                                  details := None;
                                  timestamp := "1970-01-01T00:00:05.000Z" |} |}) /\
  result (refreshWeather isoSample provider 1000 5000
            (Text "Furnace Creek") None) =
  Returned
    (Sent {| status := 400;
             body := JsonError {| message := "temperatureOutOfRange";
                                  code := None;
                                  details := None;
                                  timestamp := "1970-01-01T00:00:05.000Z" |} |}).
Proof.
  split; [reflexivity |].
  exact (handlers_differ_on_out_of_range
           isoSample provider 1000 1000 5000 "Furnace Creek" (Text "celsius")
           celsius {| ok := true; json := inr furnace |} furnace
           eq_refl eq_refl eq_refl eq_refl eq_refl eq_refl).
Defined.

(** X18: after a refresh that succeeded, a [getCurrentWeather] whose call
    to the provider fails sends status 200 with the reading of the
    refresh, in the unit asked for, labelled [offline] when at most one
    hour lies between the two calls and [outdated] otherwise. *)
Theorem getCurrentWeather_after_refresh
  toISOString fetch now sent loc data
  fetch' now' now'' sent' loc' unitParam unit error (s : Cache) :
  nonEmpty loc = true -> FetchSucceeds fetch loc data ->
  nonEmpty loc' = true ->
  unitOf (orDefault unitParam (Text "celsius")) = Some unit ->
  FetchFails fetch' loc' error ->
  getCurrentWeather toISOString fetch' now' now'' sent'
    {| queryLocation := Text loc'; queryUnit := unitParam |}
    (cacheAfter (refreshWeather toISOString fetch now sent (Text loc) s)) =
  (Returned
     (okResponse toISOString sent'
        (inUnit unit
           (withStatus (weatherDataOf data)
              (if now' - now <=? oneHour then offline else outdated)))),
   Some {| reading := weatherDataOf data; cachedAt := now |}).
Proof.
  intros Hl Hs Hl' Hu Hf.
  rewrite (refreshWeather_valid toISOString fetch now sent loc s Hl).
  rewrite (fetchWeatherData_succeeds fetch now loc data s Hs).
  rewrite (getCurrentWeather_valid _ fetch' now' now'' sent' loc' unitParam unit _ Hl' Hu).
  unfold cacheAfter, freshSlot. simpl snd.
  rewrite (fetchWeatherData_fails fetch' now' loc' error _ Hf).
  run_service. cbn [cachedAt reading]. now rewrite cacheStatus_cases.
Qed.

Lemma getCurrentWeather_after_refresh_witness :
  FetchSucceeds provider "Oslo" oslo /\
  FetchFails provider "Nowhere" "fetch failed" /\
  result (getCurrentWeather isoSample provider 2000 2000 5000
            (sampleQuery "Nowhere" "fahrenheit")
            (cacheAfter (refreshWeather isoSample provider 1000 4000
                           (Text "Oslo") None))) =
  Returned
    (Sent {| status := 200;
             body := JsonSuccess
                       {| data := mkWeatherData (261 # 10) fahrenheit
                                    "Oslo, Norway" "2024-05-01 12:15" offline;
                          metadata :=
                            [("timestamp",
                              JsString "1970-01-01T00:00:05.000Z")] |} |}).
Proof.
  assert (Hs : FetchSucceeds provider "Oslo" oslo).
  { apply Accepted with (response := {| ok := true; json := inr oslo |});
      reflexivity. }
  assert (Hf : FetchFails provider "Nowhere" "fetch failed")
    by (apply TransportError; reflexivity).
  split; [exact Hs |]. split; [exact Hf |].
  exact (f_equal fst
           (getCurrentWeather_after_refresh
              isoSample provider 1000 4000 "Oslo" oslo
              provider 2000 2000 5000 "Nowhere" (Text "fahrenheit") fahrenheit
              "fetch failed" None eq_refl Hs eq_refl eq_refl Hf)).
Defined.

(** ** The error middleware and the response builders *)

(** X19: [errorMiddleware] sends the error's status code, or 500 when
    there is none or it is 0, and the error's message, or
    [Internal Server Error] when it is empty: never status 0, never an
    empty message.  The stack goes out in development only. *)
Theorem errorMiddleware_response toISOString development now (error : AppError) :
  let r := errorMiddleware toISOString development now error in
  status r <> 0 /\
  (statusCode error = None \/ statusCode error = Some 0 -> status r = 500) /\
  (forall c, statusCode error = Some c -> c <> 0 -> status r = c) /\
  exists b,
    body r = JsonFailure b /\
    failureMessage b <> EmptyString /\
    (errorMessage error <> EmptyString -> failureMessage b = errorMessage error) /\
    (errorMessage error = EmptyString ->
     failureMessage b = "Internal Server Error") /\
    (development = false -> failureStack b = None) /\
    (development = true -> failureStack b = stack error) /\
    failureTimestamp b = toISOString now.
Proof.
  destruct error as [m c st]. cbv zeta. unfold errorMiddleware.
  cbn [statusCode errorMessage stack status body].
  split; [| split; [| split]].
  - destruct c as [c |]; [| discriminate].
    destruct (Z.eqb_spec c 0); [discriminate | assumption].
  - intros [-> | ->]; reflexivity.
  - intros c' -> Hc. apply Z.eqb_neq in Hc. now rewrite Hc.
  - eexists. split; [reflexivity |].
    cbn [failureMessage failureStack failureTimestamp].
    repeat split.
    + destruct m; discriminate.
    + destruct m; [congruence | reflexivity].
    + now intros ->.
    + now intros ->.
    + now intros ->.
Qed.

Lemma getKey_setKey_same (k : string) (v : JsValue) (o : Obj) :
  getKey k (setKey k v o) = Some v.
Proof.
  induction o as [| [k' v'] o IH]; simpl.
  - now rewrite String.eqb_refl.
  - destruct (String.eqb k k') eqn:E; simpl; rewrite E; auto.
Qed.

Lemma getKey_setKey_other (k k2 : string) (v : JsValue) (o : Obj) :
  k <> k2 -> getKey k (setKey k2 v o) = getKey k o.
Proof.
  intros Hn. apply String.eqb_neq in Hn.
  induction o as [| [k' v'] o IH]; simpl.
  - now rewrite Hn.
  - destruct (String.eqb k2 k') eqn:E; simpl.
    + apply String.eqb_eq in E. subst k'. now rewrite Hn.
    + destruct (String.eqb k k'); auto.
Qed.

(** A spread key has the last value the source gives it, and otherwise
    the value of the target. *)
Lemma getKey_spread (k : string) (target source : Obj) :
  getKey k (spread target source) =
  match getKey k (rev source) with
  | Some v => Some v
  | None => getKey k target
  end.
Proof.
  induction source as [| [k2 v] source IH] using rev_ind.
  - reflexivity.
  - unfold spread in *. rewrite fold_left_app, rev_app_distr. simpl.
    destruct (String.eqb k k2) eqn:E.
    + apply String.eqb_eq in E. subst k2. apply getKey_setKey_same.
    + apply String.eqb_neq in E.
      now rewrite (getKey_setKey_other k k2 v _ E).
Qed.

(** X20: the metadata of a [successResponse] always has a [timestamp]:
    the last one the caller's metadata gives, or else the time of the
    call; every other key has the last value the caller's metadata gives
    it, and no other key is there.  Without metadata the timestamp is the
    only key. *)
Theorem successResponse_metadata {T : Set}
  toISOString now (d : T) (given : option Obj) :
  let r := successResponse toISOString now d given in
  let source := match given with Some m => m | None => [] end in
  data r = d /\
  getKey "timestamp" (metadata r) =
  Some (match getKey "timestamp" (rev source) with
        | Some v => v
        | None => JsString (toISOString now)
        end) /\
  (forall k, k <> "timestamp" ->
             getKey k (metadata r) = getKey k (rev source)) /\
  (given = None ->
   metadata r = [("timestamp", JsString (toISOString now))]).
Proof.
  cbv zeta. unfold successResponse. cbn [data metadata].
  split; [reflexivity |]. split; [| split].
  - rewrite getKey_spread. simpl.
    now destruct (getKey "timestamp" (rev _)).
  - intros k Hk. rewrite getKey_spread. simpl.
    apply String.eqb_neq in Hk. rewrite Hk.
    now destruct (getKey k (rev _)).
  - now intros ->.
Qed.
